(** * Star-Simulation: the [StarPhysics] class of [src/main.py]

    A shallow embedding of the stellar-evolution core (class [StarPhysics],
    lines 11-169 of [src/main.py]) and the properties of it that the
    specification states.  The specification calls the class
    StellarEvolutionModel, its method [update] advance, and the attributes
    [current_h2] and [h2_percentage] currentFuelFraction and
    initialFuelFraction.

    Numbers.  The program computes on Python floats; the specification
    speaks of reals.  A float is read here as the real number it stands
    for ([R] of the Standard Library), so rounding, overflow, underflow,
    infinities and NaN are outside the model: [float_pow] has neither the
    [OverflowError] CPython raises when a power leaves the range of a
    double nor the zero an underflow gives, and [lose_mass] is exact where
    lines 144-145 round.  What the model does have:
    - a division by zero raises [ZeroDivisionError];
    - [x ** y] with a negative base and a fractional exponent is a Python
      [complex]; the model records that the value is complex ([Cx]) without
      tracking it, because every ordering test on a complex raises
      [TypeError] and arithmetic keeps it complex;
    - [np.log10 0.0] is minus infinity ([NegInf]).

    Effects.  The methods mutate [self]; they are functions from the
    object before the call to the object after it, in an error monad whose
    [Raise] stands for a Python exception leaving the method.  The
    half-updated object an exception leaves behind is not modelled. *)

From Stdlib Require Import Bool Reals Lra Lia List.
Import ListNotations.

Open Scope bool_scope.
Open Scope R_scope.

(** ** Exceptions and the error monad *)

(** The exceptions of the model are [ZeroDivisionError] and [TypeError].
    On doubles the powers of lines 37, 39, 41, 138 and 169 can also raise
    [OverflowError], when their result leaves the range of a double; the
    real-number reading has no such result and no constructor for it.
    [InvalidParameterError] and [InvalidArgumentError] are the error kinds
    named by section 7 of the specification; no statement of [src/main.py]
    raises them. *)
Inductive exn : Type :=
  | ZeroDivisionError
  | TypeError
  | InvalidParameterError
  | InvalidArgumentError.

Inductive result (A : Type) : Type :=
  | Ok (a : A)
  | Raise (e : exn).

Arguments Ok {A} a.
Arguments Raise {A} e.

Definition bind {A B : Type} (c : result A) (k : A -> result B) : result B :=
  match c with
  | Ok a => k a
  | Raise e => Raise e
  end.

Notation "x <- c ;; k" := (bind c (fun x => k))
  (at level 61, c at next level, right associativity).

(** ** Numbers *)

(** A value of an arithmetic expression: a real, or a complex number. *)
Inductive num : Type :=
  | Re (r : R)
  | Cx.

(** Python's [<], [>], [<=] on floats. *)
Definition float_lt (x y : R) : bool := if Rlt_dec x y then true else false.
Definition float_gt (x y : R) : bool := if Rgt_dec x y then true else false.
Definition float_le (x y : R) : bool := if Rle_dec x y then true else false.

(** [x / y] on floats. *)
Definition float_div (x y : R) : result R :=
  if Req_dec_T y 0 then Raise ZeroDivisionError else Ok (x / y).

(** [x ** y] on floats, for the fractional exponents of the program
    (2.3, 3.5, 0.25, 0.8, 0.57 and -2.5): [float_pow] of CPython wherever
    the result is inside the range of a double.  Outside it CPython raises
    [OverflowError] or returns zero; the model returns the real power. *)
Definition float_pow (x y : R) : result num :=
  if Rlt_dec 0 x then Ok (Re (Rpower x y))
  else if Req_dec_T x 0 then
    if Rlt_dec y 0 then Raise ZeroDivisionError
    else if Req_dec_T y 0 then Ok (Re 1)
    else Ok (Re 0)
  else Ok Cx.

(** [v ** y] where [v] may already be complex. *)
Definition num_pow (v : num) (y : R) : result num :=
  match v with
  | Re r => float_pow r y
  | Cx => Ok Cx
  end.

(** [c * v] and [v * c] with a float [c]. *)
Definition num_scale (c : R) (v : num) : num :=
  match v with
  | Re r => Re (c * r)
  | Cx => Cx
  end.

Definition num_mul_float (v : num) (c : R) : num :=
  match v with
  | Re r => Re (r * c)
  | Cx => Cx
  end.

Definition log10 (x : R) : R := ln x / ln 10.

(** ** The object *)

Inductive Stage : Type :=
  | Protostar
  | MainSequence
  | RedGiant
  | WhiteDwarf
  | Supernova.

(** The strings the source stores in [self.stage]. *)
Definition Stage_eqb (a b : Stage) : bool :=
  match a, b with
  | Protostar, Protostar
  | MainSequence, MainSequence
  | RedGiant, RedGiant
  | WhiteDwarf, WhiteDwarf
  | Supernova, Supernova => true
  | _, _ => false
  end.

(** The attributes [__init__] creates.  [SOLAR_MASS], [SOLAR_RADIUS] and
    [SOLAR_LUMINOSITY] are assigned once and never read; they are left out. *)
Record StarPhysics : Type := mkStar {
  initial_mass : R;
  current_mass : R;
  h2_percentage : R;
  current_h2 : R;
  age : R;
  luminosity : num;
  temperature : num;
  radius : num;
  initial_radius : num;
  stage : Stage;
  expansion_factor : R
}.

Definition set_current_mass (self : StarPhysics) (v : R) : StarPhysics :=
  mkStar (initial_mass self) v (h2_percentage self) (current_h2 self)
    (age self) (luminosity self) (temperature self) (radius self)
    (initial_radius self) (stage self) (expansion_factor self).

Definition set_current_h2 (self : StarPhysics) (v : R) : StarPhysics :=
  mkStar (initial_mass self) (current_mass self) (h2_percentage self) v
    (age self) (luminosity self) (temperature self) (radius self)
    (initial_radius self) (stage self) (expansion_factor self).

Definition set_age (self : StarPhysics) (v : R) : StarPhysics :=
  mkStar (initial_mass self) (current_mass self) (h2_percentage self)
    (current_h2 self) v (luminosity self) (temperature self) (radius self)
    (initial_radius self) (stage self) (expansion_factor self).

Definition set_luminosity (self : StarPhysics) (v : num) : StarPhysics :=
  mkStar (initial_mass self) (current_mass self) (h2_percentage self)
    (current_h2 self) (age self) v (temperature self) (radius self)
    (initial_radius self) (stage self) (expansion_factor self).

Definition set_temperature (self : StarPhysics) (v : num) : StarPhysics :=
  mkStar (initial_mass self) (current_mass self) (h2_percentage self)
    (current_h2 self) (age self) (luminosity self) v (radius self)
    (initial_radius self) (stage self) (expansion_factor self).

Definition set_radius (self : StarPhysics) (v : num) : StarPhysics :=
  mkStar (initial_mass self) (current_mass self) (h2_percentage self)
    (current_h2 self) (age self) (luminosity self) (temperature self) v
    (initial_radius self) (stage self) (expansion_factor self).

Definition set_initial_radius (self : StarPhysics) (v : num) : StarPhysics :=
  mkStar (initial_mass self) (current_mass self) (h2_percentage self)
    (current_h2 self) (age self) (luminosity self) (temperature self)
    (radius self) v (stage self) (expansion_factor self).

Definition set_stage (self : StarPhysics) (v : Stage) : StarPhysics :=
  mkStar (initial_mass self) (current_mass self) (h2_percentage self)
    (current_h2 self) (age self) (luminosity self) (temperature self)
    (radius self) (initial_radius self) v (expansion_factor self).

Definition set_expansion_factor (self : StarPhysics) (v : R) : StarPhysics :=
  mkStar (initial_mass self) (current_mass self) (h2_percentage self)
    (current_h2 self) (age self) (luminosity self) (temperature self)
    (radius self) (initial_radius self) (stage self) v.

(** ** The methods *)

(** [get_formation_time] (lines 128-130): [50000 * (1 / self.initial_mass)]. *)
Definition get_formation_time (self : StarPhysics) : result R :=
  q <- float_div 1 (initial_mass self) ;;
  Ok (50000 * q).

(** [get_main_sequence_lifetime] (lines 167-169):
    [1e10 * (self.initial_mass ** -2.5) * (self.h2_percentage / 71)]. *)
Definition get_main_sequence_lifetime (self : StarPhysics) : result num :=
  p <- float_pow (initial_mass self) (-2.5) ;;
  q <- float_div (h2_percentage self) 71 ;;
  Ok (num_mul_float (num_scale 1e10 p) q).

(** [calculate_base_radius] (lines 58-63). *)
Definition calculate_base_radius (self : StarPhysics) : result num :=
  if float_lt (current_mass self) 1.0
  then float_pow (current_mass self) 0.8
  else float_pow (current_mass self) 0.57.

(** [handle_stage_transition] (lines 119-126). *)
Definition handle_stage_transition (self : StarPhysics)
    (old_stage new_stage : Stage) : StarPhysics :=
  if Stage_eqb old_stage MainSequence && Stage_eqb new_stage RedGiant then
    set_expansion_factor self (expansion_factor self * 2.0)
  else if Stage_eqb new_stage Supernova then
    set_expansion_factor self (expansion_factor self * 10.0)
  else self.

(** The [if]/[elif] cascade of [determine_stage] (lines 99-111) that
    computes the local [new_stage]; [formation_time] is the value of
    [self.get_formation_time()]. *)
Definition new_stage_of (self : StarPhysics) (formation_time : R) : Stage :=
  let old_stage := stage self in
  if float_lt (age self) formation_time then Protostar
  else if float_gt (current_h2 self) 0.1 then MainSequence
  else if float_gt (current_mass self) 1.44 then
    if negb (Stage_eqb old_stage Supernova) then RedGiant else Supernova
  else if float_le (current_h2 self) 0.1
          && negb (Stage_eqb old_stage WhiteDwarf) then RedGiant
  else WhiteDwarf.

(** [determine_stage] (lines 95-117). *)
Definition determine_stage (self : StarPhysics) : result StarPhysics :=
  let old_stage := stage self in
  formation_time <- get_formation_time self ;;
  let new_stage := new_stage_of self formation_time in
  let self :=
    if negb (Stage_eqb old_stage new_stage)
    then handle_stage_transition self old_stage new_stage
    else self in
  Ok (set_stage self new_stage).

(** [update_expansion_factor] (lines 65-93). *)
Definition update_expansion_factor (self : StarPhysics) : result StarPhysics :=
  match stage self with
  | Protostar =>
      formation_time <- get_formation_time self ;;
      q <- float_div (age self) formation_time ;;
      let time_factor := Rmin 1.0 q in
      Ok (set_expansion_factor self (2.0 - time_factor))
  | MainSequence =>
      ms_lifetime <- get_main_sequence_lifetime self ;;
      match ms_lifetime with
      | Cx => Raise TypeError
      | Re l =>
          if float_gt l 0 then
            q <- float_div (age self) l ;;
            let progress := Rmin 1.0 q in
            Ok (set_expansion_factor self (1.0 + progress * 0.5))
          else Ok self
      end
  | RedGiant =>
      let target_expansion := if float_gt (initial_mass self) 1.44
                              then 100 else 50 in
      let current_expansion := expansion_factor self in
      Ok (set_expansion_factor self
            (Rmin target_expansion (current_expansion + 0.1)))
  | WhiteDwarf =>
      Ok (set_expansion_factor self (Rmax 0.01 (expansion_factor self * 0.95)))
  | Supernova =>
      Ok (set_expansion_factor self (expansion_factor self * 1.5))
  end.

(** The mass-luminosity relation of [update_stellar_properties]
    (lines 36-41).  The middle regime raises to the integer power 4. *)
Definition mass_luminosity (m : R) : result num :=
  if float_lt m 0.43 then
    p <- float_pow m 2.3 ;; Ok (num_scale 0.23 p)
  else if float_lt m 2 then Ok (Re (m ^ 4))
  else
    p <- float_pow m 3.5 ;; Ok (num_scale 1.4 p).

(** [update_stellar_properties] (lines 33-56), statement by statement. *)
Definition update_stellar_properties (self : StarPhysics)
    : result StarPhysics :=
  l <- mass_luminosity (current_mass self) ;;
  let self := set_luminosity self l in
  p <- num_pow (luminosity self) 0.25 ;;
  let self := set_temperature self (num_scale 5778 p) in
  base_radius <- calculate_base_radius self ;;
  let self := set_radius self
                (num_mul_float base_radius (expansion_factor self)) in
  self <- determine_stage self ;;
  update_expansion_factor self.

(** [__init__] (lines 12-31). *)
Definition __init__ (initial_mass h2_percentage : R) : result StarPhysics :=
  let self := mkStar initial_mass initial_mass h2_percentage h2_percentage
                0 (Re 0) (Re 0) (Re 0) (Re 0) Protostar 1.0 in
  self <- update_stellar_properties self ;;
  Ok (set_initial_radius self (radius self)).

(** The fuel step of [update] (lines 137-140).  [max(0, z)] with a complex
    [z] raises [TypeError]. *)
Definition consume_h2 (self : StarPhysics) (delta_time : R)
    : result StarPhysics :=
  p <- float_pow (current_mass self) 3.5 ;;
  match p with
  | Cx => Raise TypeError
  | Re p =>
      let h2_consumption_rate := 0.1 * p / 1e10 in
      let h2 := current_h2 self - h2_consumption_rate * delta_time in
      Ok (set_current_h2 self (Rmax 0 h2))
  end.

(** The mass-loss step of [update] (lines 143-145), in exact arithmetic:
    the two products and the difference are not rounded. *)
Definition lose_mass (self : StarPhysics) (delta_time : R) : StarPhysics :=
  let mass_loss_rate := 1e-11 * current_mass self in
  set_current_mass self (current_mass self - mass_loss_rate * delta_time).

(** [update] (lines 132-147). *)
Definition update (self : StarPhysics) (delta_time : R) : result StarPhysics :=
  let self := set_age self (age self + delta_time) in
  self <- (if Stage_eqb (stage self) MainSequence
           then consume_h2 self delta_time else Ok self) ;;
  let self := if Stage_eqb (stage self) RedGiant
              then lose_mass self delta_time else self in
  update_stellar_properties self.

(** The value [get_emission] returns. *)
Inductive emission : Type :=
  | Finite (r : R)
  | NegInf.

(** [get_emission] (lines 163-165): [min(1.0, 0.2 + np.log10(L) / 5)].
    [np.log10] of zero is minus infinity, of a negative float NaN (and
    [min(1.0, nan)] is [1.0]); [min] on a complex raises [TypeError]. *)
Definition get_emission (self : StarPhysics) : result emission :=
  match luminosity self with
  | Cx => Raise TypeError
  | Re l =>
      if Rlt_dec 0 l then Ok (Finite (Rmin 1.0 (0.2 + log10 l / 5)))
      else if Req_dec_T l 0 then Ok NegInf
      else Ok (Finite 1.0)
  end.

(** ** The host loop *)

(** [main] (lines 316 and 333) builds one star and calls [update] once per
    tick; [delta_times] lists the ticks' elapsed times. *)
Fixpoint update_all (self : StarPhysics) (delta_times : list R)
    : result StarPhysics :=
  match delta_times with
  | [] => Ok self
  | delta_time :: rest =>
      self <- update self delta_time ;; update_all self rest
  end.

Definition simulate (mass h2 : R) (delta_times : list R) : result StarPhysics :=
  star <- __init__ mass h2 ;; update_all star delta_times.

(** ** Notions the properties are stated with *)

(** The value of [get_formation_time] for a non-zero initial mass [m]. *)
Definition formation_time_of (m : R) : R := 50000 * (1 / m).

(** The value of [get_main_sequence_lifetime] for a positive initial mass
    [m] and the initial fuel [h2]. *)
Definition lifetime_of (m h2 : R) : R := 1e10 * Rpower m (-2.5) * (h2 / 71).

(** The object [update_stellar_properties] hands to
    [update_expansion_factor]: luminosity [l], temperature [5778 * p],
    radius [b * expansion_factor] with the expansion factor the call
    started with, the new stage, and the expansion factor after the
    transition burst. *)
Definition before_expansion_update (self : StarPhysics) (l p b : num)
    : StarPhysics :=
  let new_stage := new_stage_of self (formation_time_of (initial_mass self)) in
  mkStar (initial_mass self) (current_mass self) (h2_percentage self)
    (current_h2 self) (age self) l (num_scale 5778 p)
    (num_mul_float b (expansion_factor self)) (initial_radius self) new_stage
    (expansion_factor
       (if negb (Stage_eqb (stage self) new_stage)
        then handle_stage_transition self (stage self) new_stage
        else self)).

(** What holds of the object whenever a recomputation has just returned:
    the mass is the initial one unless the fuel is spent, the stage is the
    cascade's answer for the current attributes, luminosity and temperature
    are those of the current mass, and in the Protostar and Main Sequence
    stages the expansion factor is the one of the current age. *)
Definition settled (s : StarPhysics) : Prop :=
  0 < initial_mass s /\
  (current_mass s = initial_mass s \/ current_h2 s <= 0.1) /\
  stage s = new_stage_of s (formation_time_of (initial_mass s)) /\
  mass_luminosity (current_mass s) = Ok (luminosity s) /\
  (exists p, num_pow (luminosity s) 0.25 = Ok p /\
             temperature s = num_scale 5778 p) /\
  (stage s = Protostar ->
   expansion_factor s
   = 2.0 - Rmin 1.0 (age s / formation_time_of (initial_mass s))) /\
  (stage s = MainSequence ->
   lifetime_of (initial_mass s) (h2_percentage s) > 0 ->
   expansion_factor s
   = 1.0 + Rmin 1.0 (age s / lifetime_of (initial_mass s) (h2_percentage s))
           * 0.5).

(** The object [update] hands to [update_stellar_properties] (lines
    134-145), when the fuel consumption rate is real. *)
Definition aged (self : StarPhysics) (delta_time : R) : StarPhysics :=
  let s1 := set_age self (age self + delta_time) in
  let s2 :=
    if Stage_eqb (stage s1) MainSequence
    then set_current_h2 s1
           (Rmax 0 (current_h2 s1
                    - 0.1 * Rpower (current_mass s1) 3.5 / 1e10 * delta_time))
    else s1 in
  if Stage_eqb (stage s2) RedGiant then lose_mass s2 delta_time else s2.

(** The stars the host can hold: built by [__init__] from a positive mass
    and advanced by [update] with non-negative elapsed times. *)
Inductive reachable : StarPhysics -> Prop :=
  | reach_init (mass h2 : R) (star : StarPhysics) :
      0 < mass -> __init__ mass h2 = Ok star -> reachable star
  | reach_update (star star' : StarPhysics) (delta_time : R) :
      reachable star -> 0 <= delta_time ->
      update star delta_time = Ok star' -> reachable star'.

(** [StarPhysics(1.0, 71.0)]: luminosity 1, temperature 5778, base radius
    1; the age 0 is below the formation time 50000, so the stage is
    Protostar and the expansion factor becomes 2. *)
Definition sun_protostar : StarPhysics :=
  mkStar 1 1 71 71 0 (Re 1) (Re 5778) (Re 1) (Re 1) Protostar 2.

(** The same star 10000 years later. *)
Definition sun_protostar_10000 : StarPhysics :=
  mkStar 1 1 71 71 10000 (Re 1) (Re 5778) (Re 2) (Re 1) Protostar 1.8.

(** [StarPhysics(2.0, 0.0)], a high-mass star without fuel. *)
Definition high_mass_protostar : StarPhysics :=
  mkStar 2 2 0 0 0 (Re (1.4 * Rpower 2 3.5))
    (Re (5778 * Rpower (1.4 * Rpower 2 3.5) 0.25))
    (Re (Rpower 2 0.57)) (Re (Rpower 2 0.57)) Protostar 2.

(** At the formation time 25000 it becomes a Red Giant. *)
Definition high_mass_red_giant : StarPhysics :=
  mkStar 2 2 0 0 25000 (Re (1.4 * Rpower 2 3.5))
    (Re (5778 * Rpower (1.4 * Rpower 2 3.5) 0.25))
    (Re (Rpower 2 0.57 * 2)) (Re (Rpower 2 0.57)) RedGiant 2.1.

(** A tick of no elapsed time on the Red Giant. *)
Definition high_mass_red_giant_again : StarPhysics :=
  mkStar 2 2 0 0 25000 (Re (1.4 * Rpower 2 3.5))
    (Re (5778 * Rpower (1.4 * Rpower 2 3.5) 0.25))
    (Re (Rpower 2 0.57 * 2.1)) (Re (Rpower 2 0.57)) RedGiant 2.2.

(** A tick of 2e11 years on the Red Giant takes away twice its mass. *)
Definition high_mass_collapsed : StarPhysics :=
  mkStar 2 (-2) 0 0 (25000 + 2e11) Cx Cx Cx (Re (Rpower 2 0.57)) RedGiant 2.2.

(** A further tick of 5e10 years gives half of the lost mass back. *)
Definition high_mass_rebound : StarPhysics :=
  mkStar 2 (-1) 0 0 (25000 + 2e11 + 5e10) Cx Cx Cx (Re (Rpower 2 0.57))
    RedGiant 2.3.

(** [StarPhysics(0.1, 71.0)], a low-mass star. *)
Definition low_mass_protostar : StarPhysics :=
  mkStar 0.1 0.1 71 71 0 (Re (0.23 * Rpower 0.1 2.3))
    (Re (5778 * Rpower (0.23 * Rpower 0.1 2.3) 0.25))
    (Re (Rpower 0.1 0.8)) (Re (Rpower 0.1 0.8)) Protostar 2.

(** [StarPhysics(-1.0, 0.0)]: every power of the mass is complex, no
    ordering test meets one of them, and the object is built. *)
Definition negative_mass_star : StarPhysics :=
  mkStar (-1) (-1) 0 0 0 Cx Cx Cx Cx RedGiant 1.1.

(** Whether a call returned a star in stage [st]. *)
Definition in_stage (r : result StarPhysics) (st : Stage) : bool :=
  match r with
  | Ok star => Stage_eqb (stage star) st
  | Raise _ => false
  end.

(** The formation time in the words of the specification (section 4.1):
    [formationTime(m) = 50000/m]. *)
Definition formationTime (m : R) : R := 50000 / m.

(** The five-rule cascade in the words of the specification: Protostar
    below the formation time; else Main Sequence with fuel above 0.1; else,
    with a mass above 1.44, Supernova after Supernova and Red Giant
    otherwise; else Red Giant unless the previous stage is White Dwarf;
    else White Dwarf. *)
Definition transition_rule (old : Stage)
    (age initialMass currentMass currentFuelFraction : R) : Stage :=
  if Rlt_dec age (formationTime initialMass) then Protostar
  else if Rgt_dec currentFuelFraction 0.1 then MainSequence
  else if Rgt_dec currentMass 1.44 then
    match old with Supernova => Supernova | _ => RedGiant end
  else
    match old with WhiteDwarf => WhiteDwarf | _ => RedGiant end.

(** A Main Sequence star of one solar mass built without fuel. *)
Definition fuelless_star : StarPhysics :=
  mkStar 1 1 0 0 50000 (Re 1) (Re 5778) (Re 1) (Re 1) MainSequence 1.

(** [StarPhysics(1.0, 71.0)] after one tick of 50000 years, its formation
    time: a Main Sequence star with all its fuel. *)
Definition sun_main_sequence : StarPhysics :=
  mkStar 1 1 71 71 50000 (Re 1) (Re 5778) (Re 2) (Re 1) MainSequence
    1.0000025.

(** ** The rest of the class *)

(** [get_color] (lines 148-161).  [temp < 3500] on a complex temperature
    raises [TypeError]. *)
Definition get_color (self : StarPhysics) : result (R * R * R) :=
  match temperature self with
  | Cx => Raise TypeError
  | Re temp =>
      if float_lt temp 3500 then Ok (1.0, 0.0, 0.0)
      else if float_lt temp 5000 then Ok (1.0, 0.5, 0.0)
      else if float_lt temp 6000 then Ok (1.0, 1.0, 0.0)
      else if float_lt temp 7500 then Ok (1.0, 1.0, 1.0)
      else Ok (0.8, 0.8, 1.0)
  end.

(** The local [target_expansion] of [update_expansion_factor] (line 81). *)
Definition target_expansion (self : StarPhysics) : R :=
  if float_gt (initial_mass self) 1.44 then 100 else 50.

(** The local [h2_consumption_rate] of [update] (line 138) for a positive
    mass. *)
Definition h2_consumption_rate (self : StarPhysics) : R :=
  0.1 * Rpower (current_mass self) 3.5 / 1e10.

(** The place of a stage in the life of a star. *)
Definition stage_rank (st : Stage) : nat :=
  match st with
  | Protostar => 0
  | MainSequence => 1
  | RedGiant => 2
  | WhiteDwarf => 3
  | Supernova => 3
  end.

(** What holds of every reachable star besides [settled]: the age is not
    negative, the fuel is at most the initial fuel, the stage is one of the
    first three, and the expansion factor lies between 1 and the Red Giant
    target. *)
Definition orderly (s : StarPhysics) : Prop :=
  0 <= age s /\
  current_h2 s <= h2_percentage s /\
  (stage s = Protostar \/ stage s = MainSequence \/ stage s = RedGiant) /\
  1 <= expansion_factor s <= target_expansion s.

(** ** The loop of [main] *)

(** The events [main] tells apart (lines 322-330). *)
Inductive event : Type :=
  | QUIT
  | KEYDOWN_ESCAPE
  | KEYDOWN_UP
  | KEYDOWN_DOWN
  | other_event.

(** The [for event in pygame.event.get()] loop (lines 322-330) on the
    events of one frame: the new [time_acceleration], or [None] when [main]
    returns. *)
Fixpoint handle_events (events : list event) (time_acceleration : R)
    : option R :=
  match events with
  | [] => Some time_acceleration
  | QUIT :: _ => None
  | KEYDOWN_ESCAPE :: _ => None
  | KEYDOWN_UP :: rest => handle_events rest (time_acceleration * 2)
  | KEYDOWN_DOWN :: rest => handle_events rest (time_acceleration / 2)
  | other_event :: rest => handle_events rest time_acceleration
  end.

(** The [while True] loop of [main] (lines 321-385) over the frames the
    host sees, each with its events and the milliseconds
    [clock.get_time()] reports.  The calls into OpenGL and pygame that draw
    the star are left out; the two methods they read from the star are
    called as line 345 and line 346 do. *)
Fixpoint main_loop (star : StarPhysics) (time_acceleration : R)
    (frames : list (list event * nat)) : result StarPhysics :=
  match frames with
  | [] => Ok star
  | (events, clock_time) :: rest =>
      match handle_events events time_acceleration with
      | None => Ok star
      | Some time_acceleration =>
          let delta_time := INR clock_time / 1000 * time_acceleration in
          star <- update star delta_time ;;
          color <- get_color star ;;
          emission <- get_emission star ;;
          main_loop star time_acceleration rest
      end
  end.

(** [main] (lines 292-385) for the mass and fuel [get_user_input]
    returns. *)
Definition main (mass h2_percentage : R) (frames : list (list event * nat))
    : result StarPhysics :=
  star <- __init__ mass h2_percentage ;;
  main_loop star 1e3 frames.

(** The elapsed times [main_loop] hands to [update], frame by frame, up to
    the frame in which [main] returns. *)
Fixpoint elapsed_times (time_acceleration : R)
    (frames : list (list event * nat)) : list R :=
  match frames with
  | [] => []
  | (events, clock_time) :: rest =>
      match handle_events events time_acceleration with
      | None => []
      | Some time_acceleration =>
          (INR clock_time / 1000 * time_acceleration)
          :: elapsed_times time_acceleration rest
      end
  end.

(** ** The texture *)

(** [int(x)] on a float: truncation towards zero. *)
Definition py_int (x : R) : Z :=
  if Rle_dec 0 x then Int_part x else (- Int_part (- x))%Z.

(** The [size] of the only call of [generate_star_texture] (line 232). *)
Definition texture_size : Z := 256.

(** The local [intensity] of [generate_star_texture] (lines 205-215) at the
    pixel [(x, y)]. *)
Definition texel_intensity (x y : Z) : R :=
  let center := (texture_size / 2)%Z in
  let max_radius := (texture_size / 2)%Z in
  let dx := (x - center)%Z in
  let dy := (y - center)%Z in
  let distance := sqrt (IZR (dx * dx + dy * dy)) in
  Rmax 0 (1 - distance / IZR max_radius).

(** The four numbers [generate_star_texture] (lines 208-227) writes at the
    pixel [(x, y)]; [rand] is the value of [np.random.rand()] there. *)
Definition texel (x y : Z) (rand : R) : Z * Z * Z * Z :=
  let intensity := texel_intensity x y in
  let noise := rand * 0.2 in
  let pattern := sin (IZR x / 8.0) * cos (IZR y / 8.0) * 0.1
                 + sin (IZR (x + y) / 16.0) * 0.1 in
  let value := Rmin 1.0 (Rmax 0.0 (intensity + noise + pattern)) in
  let brightness := py_int (value * 255) in
  let alpha := py_int (intensity * 255) in
  (brightness, brightness, brightness, alpha).

(** * Properties *)

(** ** Comparisons, division and powers *)

Lemma float_lt_true (x y : R) : x < y -> float_lt x y = true.
Proof. intros H. unfold float_lt. destruct (Rlt_dec x y); [reflexivity | contradiction]. Qed.

Lemma float_lt_false (x y : R) : y <= x -> float_lt x y = false.
Proof. intros H. unfold float_lt. destruct (Rlt_dec x y); [lra | reflexivity]. Qed.

Lemma float_gt_true (x y : R) : y < x -> float_gt x y = true.
Proof. intros H. unfold float_gt. destruct (Rgt_dec x y); [reflexivity | contradiction]. Qed.

Lemma float_gt_false (x y : R) : x <= y -> float_gt x y = false.
Proof. intros H. unfold float_gt. destruct (Rgt_dec x y); [lra | reflexivity]. Qed.

Lemma float_le_true (x y : R) : x <= y -> float_le x y = true.
Proof. intros H. unfold float_le. destruct (Rle_dec x y); [reflexivity | contradiction]. Qed.

Lemma float_le_false (x y : R) : y < x -> float_le x y = false.
Proof. intros H. unfold float_le. destruct (Rle_dec x y); [lra | reflexivity]. Qed.

Lemma float_div_ok (x y : R) : y <> 0 -> float_div x y = Ok (x / y).
Proof. intros H. unfold float_div. destruct (Req_dec_T y 0); [contradiction | reflexivity]. Qed.

Lemma float_div_zero (x : R) : float_div x 0 = Raise ZeroDivisionError.
Proof. unfold float_div. destruct (Req_dec_T 0 0); [reflexivity | contradiction]. Qed.

Lemma float_pow_pos (x y : R) : 0 < x -> float_pow x y = Ok (Re (Rpower x y)).
Proof. intros H. unfold float_pow. destruct (Rlt_dec 0 x); [reflexivity | contradiction]. Qed.

Lemma float_pow_neg (x y : R) : x < 0 -> float_pow x y = Ok Cx.
Proof.
  intros H. unfold float_pow.
  destruct (Rlt_dec 0 x); [lra |].
  destruct (Req_dec_T x 0); [lra | reflexivity].
Qed.

Lemma float_pow_zero (y : R) : 0 < y -> float_pow 0 y = Ok (Re 0).
Proof.
  intros H. unfold float_pow.
  destruct (Rlt_dec 0 0); [lra |].
  destruct (Req_dec_T 0 0); [| contradiction].
  destruct (Rlt_dec y 0); [lra |].
  destruct (Req_dec_T y 0); [lra | reflexivity].
Qed.

(** A positive exponent never raises, and the value is complex exactly for
    a negative base. *)
Lemma float_pow_total (x y : R) :
  0 < y ->
  exists v, float_pow x y = Ok v /\
            (0 <= x -> exists r, v = Re r /\ 0 <= r /\ (0 < x -> 0 < r)).
Proof.
  intros Hy.
  destruct (Rlt_dec 0 x) as [Hx | Hx].
  - exists (Re (Rpower x y)). split; [apply float_pow_pos; assumption |].
    intros _. exists (Rpower x y).
    assert (0 < Rpower x y) by apply exp_pos.
    repeat split; [lra | trivial].
  - destruct (Req_dec_T x 0) as [-> | Hx0].
    + exists (Re 0). split; [apply float_pow_zero; assumption |].
      intros _. exists 0. repeat split; lra.
    + exists Cx. split; [apply float_pow_neg; lra | intros; lra].
Qed.

Lemma Rpower_one (y : R) : Rpower 1 y = 1.
Proof. unfold Rpower. rewrite ln_1, Rmult_0_r. apply exp_0. Qed.

Lemma Rpower_pos (x y : R) : 0 < Rpower x y.
Proof. apply exp_pos. Qed.

Lemma bind_Ok {A B : Type} (c : result A) (k : A -> result B) (b : B) :
  bind c k = Ok b -> exists a, c = Ok a /\ k a = Ok b.
Proof. destruct c as [a | e]; simpl; [eauto | discriminate]. Qed.

(** Decide each float comparison of the goal by linear arithmetic. *)
Ltac decide_cmp :=
  repeat match goal with
  | |- context [float_lt ?a ?b] =>
      first [ rewrite (float_lt_true a b) by lra
            | rewrite (float_lt_false a b) by lra ]
  | |- context [float_gt ?a ?b] =>
      first [ rewrite (float_gt_true a b) by lra
            | rewrite (float_gt_false a b) by lra ]
  | |- context [float_le ?a ?b] =>
      first [ rewrite (float_le_true a b) by lra
            | rewrite (float_le_false a b) by lra ]
  | |- context [float_div ?a ?b] =>
      rewrite (float_div_ok a b) by lra
  end.


(** ** Evaluating the methods on a concrete star *)

Ltac step :=
  cbn -[Rmin Rmax Rpower Rplus Rmult Rminus Rdiv Ropp IZR pow Rinv
        float_lt float_gt float_le float_div float_pow ln Rlt_dec Req_dec_T].

Ltac positive :=
  repeat first [ apply Rpower_pos | apply Rmult_lt_0_compat | lra | simpl; lra ].

Ltac run_methods :=
  unfold __init__, update, consume_h2, lose_mass, update_stellar_properties,
    mass_luminosity, calculate_base_radius, determine_stage, new_stage_of,
    handle_stage_transition, update_expansion_factor,
    get_main_sequence_lifetime, get_formation_time;
  repeat (step; decide_cmp;
          repeat match goal with
          | |- context [float_pow ?a ?b] =>
              first [ rewrite (float_pow_pos a b) by positive
                    | rewrite (float_pow_neg a b) by lra ]
          | |- context [Rpower 1 ?b] => rewrite (Rpower_one b)
          end);
  cbv beta iota zeta delta
    [set_initial_radius set_expansion_factor set_stage set_radius
     set_temperature set_luminosity set_age set_current_h2 set_current_mass
     initial_mass current_mass h2_percentage current_h2 age luminosity
     temperature radius initial_radius stage expansion_factor].

Ltac solve_R :=
  unfold Rmin, Rmax;
  repeat match goal with
  | |- context [Rle_dec ?a ?b] => destruct (Rle_dec a b)
  end; lra.

(** Two reals are the same when arithmetic says so, or when they apply the
    same function to the same reals. *)
Ltac same_R := first [ solve_R | f_equal; same_R ].

(** Two stars are the same when their attributes are. *)
Ltac same_star := apply f_equal; f_equal; same_R.

(** ** What each method reads and writes *)

Lemma formation_time_of_nonzero (m : R) : m <> 0 -> formation_time_of m <> 0.
Proof.
  intros Hm. unfold formation_time_of.
  assert (H : 1 / m <> 0).
  { unfold Rdiv. rewrite Rmult_1_l. apply Rinv_neq_0_compat. assumption. }
  intros E. apply H. lra.
Qed.

Lemma get_formation_time_ok (self : StarPhysics) :
  initial_mass self <> 0 ->
  get_formation_time self = Ok (formation_time_of (initial_mass self)).
Proof.
  intros H. unfold get_formation_time. rewrite float_div_ok by assumption.
  reflexivity.
Qed.

Lemma get_formation_time_zero (self : StarPhysics) :
  initial_mass self = 0 -> get_formation_time self = Raise ZeroDivisionError.
Proof.
  intros H. unfold get_formation_time. rewrite H, float_div_zero. reflexivity.
Qed.

Lemma get_formation_time_inv (self : StarPhysics) (ft : R) :
  get_formation_time self = Ok ft ->
  initial_mass self <> 0 /\ ft = formation_time_of (initial_mass self).
Proof.
  intros H. destruct (Req_dec_T (initial_mass self) 0) as [E | E].
  - rewrite get_formation_time_zero in H by assumption. discriminate.
  - rewrite get_formation_time_ok in H by assumption. split; congruence.
Qed.

Lemma get_main_sequence_lifetime_pos (self : StarPhysics) :
  0 < initial_mass self ->
  get_main_sequence_lifetime self
  = Ok (Re (lifetime_of (initial_mass self) (h2_percentage self))).
Proof.
  intros H. unfold get_main_sequence_lifetime.
  rewrite float_pow_pos by assumption.
  rewrite float_div_ok by lra. reflexivity.
Qed.

Lemma get_main_sequence_lifetime_neg (self : StarPhysics) :
  initial_mass self < 0 -> get_main_sequence_lifetime self = Ok Cx.
Proof.
  intros H. unfold get_main_sequence_lifetime.
  rewrite float_pow_neg by assumption.
  rewrite float_div_ok by lra. reflexivity.
Qed.

Lemma determine_stage_ok (self : StarPhysics) :
  initial_mass self <> 0 ->
  let new_stage := new_stage_of self (formation_time_of (initial_mass self)) in
  determine_stage self
  = Ok (set_stage
          (if negb (Stage_eqb (stage self) new_stage)
           then handle_stage_transition self (stage self) new_stage
           else self)
          new_stage).
Proof.
  intros H. unfold determine_stage.
  rewrite get_formation_time_ok by assumption. reflexivity.
Qed.

Lemma Stage_eqb_eq (a b : Stage) : Stage_eqb a b = true <-> a = b.
Proof. destruct a, b; simpl; split; intros H; congruence. Qed.

Lemma Stage_eqb_refl (a : Stage) : Stage_eqb a a = true.
Proof. destruct a; reflexivity. Qed.

(** [handle_stage_transition] writes [expansion_factor] only. *)
Lemma handle_stage_transition_writes (self : StarPhysics) (old new : Stage) :
  handle_stage_transition self old new
  = set_expansion_factor self
      (expansion_factor (handle_stage_transition self old new)).
Proof.
  unfold handle_stage_transition.
  destruct (Stage_eqb old MainSequence && Stage_eqb new RedGiant);
    [reflexivity |].
  destruct (Stage_eqb new Supernova); [reflexivity |].
  destruct self; reflexivity.
Qed.

(** [update_expansion_factor] in the Protostar stage. *)
Lemma update_expansion_factor_protostar (self : StarPhysics) :
  stage self = Protostar -> initial_mass self <> 0 ->
  update_expansion_factor self
  = Ok (set_expansion_factor self
          (2.0 - Rmin 1.0 (age self / formation_time_of (initial_mass self)))).
Proof.
  intros Hs Hm. unfold update_expansion_factor. rewrite Hs.
  rewrite get_formation_time_ok by assumption. simpl bind.
  rewrite float_div_ok by (apply formation_time_of_nonzero; assumption).
  reflexivity.
Qed.

(** [update_expansion_factor] in the Main Sequence stage. *)
Lemma update_expansion_factor_main_sequence (self : StarPhysics) :
  stage self = MainSequence -> 0 < initial_mass self ->
  let l := lifetime_of (initial_mass self) (h2_percentage self) in
  update_expansion_factor self
  = Ok (if float_gt l 0
        then set_expansion_factor self (1.0 + Rmin 1.0 (age self / l) * 0.5)
        else self).
Proof.
  intros Hs Hm l. unfold update_expansion_factor. rewrite Hs.
  rewrite get_main_sequence_lifetime_pos by assumption. simpl bind. fold l.
  unfold float_gt. destruct (Rgt_dec l 0) as [Hl | Hl]; [| reflexivity].
  rewrite float_div_ok by lra. reflexivity.
Qed.

(** With a positive initial mass [update_expansion_factor] returns, and it
    writes [expansion_factor] only. *)
Lemma update_expansion_factor_total (self : StarPhysics) :
  0 < initial_mass self ->
  exists ef, update_expansion_factor self = Ok (set_expansion_factor self ef).
Proof.
  intros Hm. destruct (stage self) eqn:Hs.
  - eexists. apply update_expansion_factor_protostar; [assumption | lra].
  - rewrite update_expansion_factor_main_sequence by assumption.
    destruct (float_gt _ 0).
    + eexists. reflexivity.
    + exists (expansion_factor self). destruct self; reflexivity.
  - unfold update_expansion_factor. rewrite Hs. eexists. reflexivity.
  - unfold update_expansion_factor. rewrite Hs. eexists. reflexivity.
  - unfold update_expansion_factor. rewrite Hs. eexists. reflexivity.
Qed.

Lemma update_expansion_factor_writes (self self' : StarPhysics) :
  update_expansion_factor self = Ok self' ->
  self' = set_expansion_factor self (expansion_factor self').
Proof.
  unfold update_expansion_factor. intros H.
  destruct (stage self).
  - apply bind_Ok in H as (ft & _ & H). apply bind_Ok in H as (q & _ & H).
    injection H as <-. reflexivity.
  - apply bind_Ok in H as (l & _ & H). destruct l as [l |]; [| discriminate].
    destruct (float_gt l 0).
    + apply bind_Ok in H as (q & _ & H). injection H as <-. reflexivity.
    + injection H as <-. destruct self; reflexivity.
  - injection H as <-. reflexivity.
  - injection H as <-. reflexivity.
  - injection H as <-. reflexivity.
Qed.

Lemma mass_luminosity_total (m : R) :
  exists l, mass_luminosity m = Ok l /\
            (0 < m -> exists r, l = Re r /\ 0 < r).
Proof.
  unfold mass_luminosity.
  destruct (float_lt m 0.43) eqn:H1.
  - destruct (float_pow_total m 2.3) as (v & Hv & Hp); [lra |].
    rewrite Hv. simpl. eexists. split; [reflexivity |].
    intros Hm. destruct Hp as (r & -> & _ & Hr); [lra |].
    exists (0.23 * r). split; [reflexivity |]. specialize (Hr Hm). lra.
  - destruct (float_lt m 2) eqn:H2.
    + eexists. split; [reflexivity |]. intros Hm. eexists. split; [reflexivity |].
      apply pow_lt. assumption.
    + unfold float_lt in H2. destruct (Rlt_dec m 2); [discriminate |].
      rewrite float_pow_pos by lra. simpl. eexists. split; [reflexivity |].
      intros _. eexists. split; [reflexivity |].
      assert (0 < Rpower m 3.5) by apply Rpower_pos. lra.
Qed.

Lemma luminosity_never_negative (m : R) (l : R) :
  mass_luminosity m = Ok (Re l) -> 0 <= l.
Proof.
  unfold mass_luminosity. intros H.
  destruct (float_lt m 0.43).
  - apply bind_Ok in H as (p & Hp & H). injection H as H.
    destruct p as [p |]; [| discriminate]. injection H as <-.
    unfold float_pow in Hp.
    destruct (Rlt_dec 0 m).
    + injection Hp as <-. assert (0 < Rpower m 2.3) by apply Rpower_pos. lra.
    + destruct (Req_dec_T m 0); [| discriminate].
      destruct (Rlt_dec 2.3 0); [lra |].
      destruct (Req_dec_T 2.3 0); [lra |]. injection Hp as <-. lra.
  - destruct (float_lt m 2).
    + injection H as <-.
      replace (m ^ 4) with ((m * m) * (m * m)) by ring. nra.
    + apply bind_Ok in H as (p & Hp & H). injection H as H.
      destruct p as [p |]; [| discriminate]. injection H as <-.
      unfold float_pow in Hp.
      destruct (Rlt_dec 0 m).
      * injection Hp as <-. assert (0 < Rpower m 3.5) by apply Rpower_pos. lra.
      * destruct (Req_dec_T m 0); [| discriminate].
        destruct (Rlt_dec 3.5 0); [lra |].
        destruct (Req_dec_T 3.5 0); [lra |]. injection Hp as <-. lra.
Qed.

Lemma num_pow_quarter_total (l : num) :
  exists p, num_pow l 0.25 = Ok p.
Proof.
  destruct l as [r |]; simpl.
  - destruct (float_pow_total r 0.25) as (v & Hv & _); [lra | eauto].
  - eauto.
Qed.

Lemma calculate_base_radius_total (self : StarPhysics) :
  exists b, calculate_base_radius self = Ok b.
Proof.
  unfold calculate_base_radius. destruct (float_lt _ _).
  - destruct (float_pow_total (current_mass self) 0.8) as (v & Hv & _);
      [lra | eauto].
  - destruct (float_pow_total (current_mass self) 0.57) as (v & Hv & _);
      [lra | eauto].
Qed.

Lemma new_stage_of_reads (a b : StarPhysics) (ft : R) :
  age a = age b -> current_h2 a = current_h2 b ->
  current_mass a = current_mass b -> stage a = stage b ->
  new_stage_of a ft = new_stage_of b ft.
Proof. intros H1 H2 H3 H4. unfold new_stage_of. rewrite H1, H2, H3, H4. reflexivity. Qed.

Lemma handle_stage_transition_reads (a b : StarPhysics) (old new : Stage) :
  expansion_factor a = expansion_factor b ->
  expansion_factor (handle_stage_transition a old new)
  = expansion_factor (handle_stage_transition b old new).
Proof.
  intros H. unfold handle_stage_transition.
  destruct (Stage_eqb old MainSequence && Stage_eqb new RedGiant);
    [simpl; rewrite H; reflexivity |].
  destruct (Stage_eqb new Supernova); simpl; rewrite H; reflexivity.
Qed.

Lemma update_stellar_properties_unfold (self : StarPhysics) (l p b : num) :
  mass_luminosity (current_mass self) = Ok l ->
  num_pow l 0.25 = Ok p ->
  calculate_base_radius self = Ok b ->
  initial_mass self <> 0 ->
  update_stellar_properties self
  = update_expansion_factor (before_expansion_update self l p b).
Proof.
  intros Hl Hp Hb Hm. unfold update_stellar_properties.
  rewrite Hl. simpl bind. simpl luminosity. rewrite Hp. simpl bind.
  replace (calculate_base_radius _) with (calculate_base_radius self)
    by reflexivity.
  rewrite Hb. simpl bind.
  rewrite determine_stage_ok by (simpl; assumption).
  simpl bind. f_equal.
  set (s3 := set_radius _ _).
  assert (Hn : new_stage_of s3 (formation_time_of (initial_mass self))
               = new_stage_of self (formation_time_of (initial_mass self)))
    by (apply new_stage_of_reads; reflexivity).
  unfold before_expansion_update. cbv zeta. rewrite Hn.
  replace (stage s3) with (stage self) by reflexivity.
  destruct (negb (Stage_eqb (stage self) _)).
  - rewrite (handle_stage_transition_writes s3).
    rewrite (handle_stage_transition_reads s3 self) by reflexivity.
    reflexivity.
  - reflexivity.
Qed.

(** With a zero initial mass the recomputation stops at line 130. *)
Lemma update_stellar_properties_zero_mass (self : StarPhysics) :
  initial_mass self = 0 ->
  update_stellar_properties self = Raise ZeroDivisionError.
Proof.
  intros E.
  destruct (mass_luminosity_total (current_mass self)) as (l & Hl & _).
  destruct (num_pow_quarter_total l) as (p & Hp).
  destruct (calculate_base_radius_total self) as (b & Hb).
  unfold update_stellar_properties.
  rewrite Hl. simpl bind. simpl luminosity. rewrite Hp. simpl bind.
  replace (calculate_base_radius _) with (calculate_base_radius self)
    by reflexivity.
  rewrite Hb. simpl bind. unfold determine_stage.
  rewrite get_formation_time_zero by (simpl; assumption).
  reflexivity.
Qed.

Lemma update_stellar_properties_inv (self self' : StarPhysics) :
  update_stellar_properties self = Ok self' ->
  exists l p b,
    mass_luminosity (current_mass self) = Ok l /\
    num_pow l 0.25 = Ok p /\
    calculate_base_radius self = Ok b /\
    initial_mass self <> 0 /\
    update_expansion_factor (before_expansion_update self l p b) = Ok self'.
Proof.
  intros H.
  destruct (mass_luminosity_total (current_mass self)) as (l & Hl & _).
  destruct (num_pow_quarter_total l) as (p & Hp).
  destruct (calculate_base_radius_total self) as (b & Hb).
  assert (Hm : initial_mass self <> 0).
  { intros E. rewrite update_stellar_properties_zero_mass in H by exact E.
    discriminate. }
  exists l, p, b. repeat split; try assumption.
  rewrite <- (update_stellar_properties_unfold self l p b); assumption.
Qed.

(** ** The stage cascade *)

(** Feeding the cascade its own answer as the previous stage gives the same
    answer. *)
Lemma new_stage_of_idempotent (a b : StarPhysics) (ft : R) :
  age b = age a -> current_h2 b = current_h2 a ->
  current_mass b = current_mass a -> stage b = new_stage_of a ft ->
  new_stage_of b ft = stage b.
Proof.
  intros Ha Hh Hm Hs. rewrite Hs. unfold new_stage_of. rewrite Ha, Hh, Hm, Hs.
  unfold new_stage_of.
  destruct (float_lt (age a) ft); [reflexivity |].
  destruct (float_gt (current_h2 a) 0.1); [reflexivity |].
  destruct (float_gt (current_mass a) 1.44).
  - destruct (stage a); reflexivity.
  - destruct (float_le (current_h2 a) 0.1); [| reflexivity].
    destruct (stage a); reflexivity.
Qed.

Lemma new_stage_of_main_sequence (s : StarPhysics) (ft : R) :
  new_stage_of s ft = MainSequence -> current_h2 s > 0.1 /\ ft <= age s.
Proof.
  unfold new_stage_of, float_lt, float_gt, float_le.
  destruct (Rlt_dec (age s) ft); [discriminate |].
  destruct (Rgt_dec (current_h2 s) 0.1); [intros _; lra |].
  destruct (Rgt_dec (current_mass s) 1.44).
  - destruct (stage s); discriminate.
  - destruct (Rle_dec (current_h2 s) 0.1); [| discriminate].
    destruct (stage s); discriminate.
Qed.

Lemma new_stage_of_red_giant (s : StarPhysics) (ft : R) :
  new_stage_of s ft = RedGiant -> current_h2 s <= 0.1 /\ ft <= age s.
Proof.
  unfold new_stage_of, float_lt, float_gt, float_le.
  destruct (Rlt_dec (age s) ft); [discriminate |].
  destruct (Rgt_dec (current_h2 s) 0.1); [discriminate |].
  intros _. lra.
Qed.

(** The cascade answers Supernova only when the previous stage already is
    Supernova. *)
Lemma new_stage_of_supernova (s : StarPhysics) (ft : R) :
  new_stage_of s ft = Supernova -> stage s = Supernova.
Proof.
  unfold new_stage_of.
  destruct (float_lt (age s) ft); [discriminate |].
  destruct (float_gt (current_h2 s) 0.1); [discriminate |].
  destruct (float_gt (current_mass s) 1.44).
  - destruct (stage s); simpl; congruence.
  - destruct (float_le (current_h2 s) 0.1 && negb (Stage_eqb (stage s) WhiteDwarf));
      discriminate.
Qed.

(** ** Settled stars *)

(** A recomputation on a star of positive initial mass returns, and
    returns a settled star with the same mass, fuel and age. *)
Lemma update_stellar_properties_settles (self : StarPhysics) :
  0 < initial_mass self ->
  (current_mass self = initial_mass self \/ current_h2 self <= 0.1) ->
  exists self',
    update_stellar_properties self = Ok self' /\
    settled self' /\
    initial_mass self' = initial_mass self /\
    current_mass self' = current_mass self /\
    h2_percentage self' = h2_percentage self /\
    current_h2 self' = current_h2 self /\
    age self' = age self /\
    stage self'
    = new_stage_of self (formation_time_of (initial_mass self)).
Proof.
  intros Hm Hd.
  destruct (mass_luminosity_total (current_mass self)) as (l & Hl & _).
  destruct (num_pow_quarter_total l) as (p & Hp).
  destruct (calculate_base_radius_total self) as (b & Hb).
  rewrite (update_stellar_properties_unfold self l p b)
    by (try assumption; lra).
  set (beu := before_expansion_update self l p b).
  destruct (update_expansion_factor_total beu) as (ef & Hef); [exact Hm |].
  exists (set_expansion_factor beu ef).
  split; [exact Hef |].
  split; [| repeat split; reflexivity].
  unfold settled. simpl.
  split; [exact Hm |]. split; [exact Hd |].
  split.
  { symmetry.
    apply (new_stage_of_idempotent self (set_expansion_factor beu ef));
      reflexivity. }
  split; [exact Hl |]. split; [exists p; split; [exact Hp | reflexivity] |].
  split.
  - intros Hs.
    rewrite (update_expansion_factor_protostar beu) in Hef
      by (try exact Hs; simpl; lra).
    injection Hef as Hef. simpl in Hef. symmetry. exact Hef.
  - intros Hs Hl0.
    rewrite (update_expansion_factor_main_sequence beu) in Hef
      by (try exact Hs; exact Hm).
    simpl in Hef. rewrite float_gt_true in Hef by exact Hl0.
    injection Hef as Hef. symmetry. exact Hef.
Qed.

Lemma update_aged (self : StarPhysics) (delta_time : R) :
  (stage self = MainSequence -> 0 < current_mass self) ->
  update self delta_time = update_stellar_properties (aged self delta_time).
Proof.
  intros Hpos. unfold update, aged. cbv zeta.
  replace (stage (set_age self (age self + delta_time))) with (stage self)
    by reflexivity.
  destruct (Stage_eqb (stage self) MainSequence) eqn:Hs.
  - apply Stage_eqb_eq in Hs. unfold consume_h2.
    replace (current_mass (set_age self (age self + delta_time)))
      with (current_mass self) by reflexivity.
    rewrite float_pow_pos by (apply Hpos; exact Hs).
    reflexivity.
  - reflexivity.
Qed.

Lemma settled_main_sequence (s : StarPhysics) :
  settled s -> stage s = MainSequence ->
  current_h2 s > 0.1 /\ current_mass s = initial_mass s.
Proof.
  intros (Hm & Hd & Hs & _) E. rewrite Hs in E.
  apply new_stage_of_main_sequence in E. destruct Hd; lra.
Qed.

Lemma settled_red_giant (s : StarPhysics) :
  settled s -> stage s = RedGiant -> current_h2 s <= 0.1.
Proof.
  intros (Hm & Hd & Hs & _) E. rewrite Hs in E.
  apply new_stage_of_red_giant in E. lra.
Qed.

(** [update] on a settled star returns, whatever the elapsed time, and
    returns a settled star. *)
Lemma update_settled (self : StarPhysics) (delta_time : R) :
  settled self ->
  exists self',
    update self delta_time = Ok self' /\
    settled self' /\
    initial_mass self' = initial_mass self /\
    current_mass self' = current_mass (aged self delta_time) /\
    h2_percentage self' = h2_percentage self /\
    current_h2 self' = current_h2 (aged self delta_time) /\
    age self' = age self + delta_time /\
    stage self'
    = new_stage_of (aged self delta_time)
        (formation_time_of (initial_mass self)).
Proof.
  intros Hset.
  assert (Hms : stage self = MainSequence -> 0 < current_mass self).
  { intros E. destruct (settled_main_sequence self Hset E) as (_ & ->).
    apply Hset. }
  rewrite update_aged by exact Hms.
  assert (Him : initial_mass (aged self delta_time) = initial_mass self).
  { unfold aged. cbv zeta.
    destruct (Stage_eqb _ MainSequence); destruct (Stage_eqb _ RedGiant);
      reflexivity. }
  assert (Hh2p : h2_percentage (aged self delta_time) = h2_percentage self).
  { unfold aged. cbv zeta.
    destruct (Stage_eqb _ MainSequence); destruct (Stage_eqb _ RedGiant);
      reflexivity. }
  assert (Hage : age (aged self delta_time) = age self + delta_time).
  { unfold aged. cbv zeta.
    destruct (Stage_eqb _ MainSequence); destruct (Stage_eqb _ RedGiant);
      reflexivity. }
  destruct (update_stellar_properties_settles (aged self delta_time))
    as (self' & H & Hset' & F1 & F2 & F3 & F4 & F5 & F6).
  - rewrite Him. apply Hset.
  - rewrite Him. unfold aged. cbv zeta.
    replace (stage (set_age self (age self + delta_time))) with (stage self)
      by reflexivity.
    destruct (Stage_eqb (stage self) MainSequence) eqn:E1.
    + apply Stage_eqb_eq in E1.
      replace (stage (set_current_h2 _ _)) with (stage self) by reflexivity.
      rewrite E1. simpl Stage_eqb. cbv iota. left. simpl.
      apply (settled_main_sequence self Hset E1).
    + replace (stage (set_age self (age self + delta_time))) with (stage self)
        by reflexivity.
      destruct (Stage_eqb (stage self) RedGiant) eqn:E2.
      * apply Stage_eqb_eq in E2. right. simpl.
        apply (settled_red_giant self Hset E2).
      * simpl. apply Hset.
  - exists self'. rewrite Him in F6.
    split; [exact H |]. split; [exact Hset' |].
    repeat split; congruence.
Qed.

(** [__init__] with a positive mass returns a settled star. *)
Lemma init_settled (mass h2 : R) :
  0 < mass ->
  exists star,
    __init__ mass h2 = Ok star /\ settled star /\
    initial_mass star = mass /\ current_mass star = mass /\
    h2_percentage star = h2 /\ current_h2 star = h2 /\ age star = 0.
Proof.
  intros Hm. unfold __init__.
  set (s0 := mkStar _ _ _ _ _ _ _ _ _ _ _).
  destruct (update_stellar_properties_settles s0)
    as (s & H & Hset & F1 & F2 & F3 & F4 & F5 & F6).
  - exact Hm.
  - left. reflexivity.
  - rewrite H. simpl bind. eexists. split; [reflexivity |].
    split; [| repeat split; assumption].
    exact Hset.
Qed.

(** ** Reachable stars *)

Lemma reachable_settled (star : StarPhysics) : reachable star -> settled star.
Proof.
  induction 1 as [mass h2 star Hm H | star star' dt _ IH Hdt H].
  - destruct (init_settled mass h2 Hm) as (s & Hs & Hset & _).
    rewrite H in Hs. injection Hs as ->. exact Hset.
  - destruct (update_settled star dt IH) as (s & Hs & Hset & _).
    rewrite H in Hs. injection Hs as ->. exact Hset.
Qed.

(** ** Three stars followed by hand *)

Lemma init_sun : __init__ 1 71 = Ok sun_protostar.
Proof.
  run_methods. replace (1 ^ 4) with 1 by (simpl; lra).
  rewrite Rpower_one. unfold sun_protostar. same_star.
Qed.

Lemma update_sun : update sun_protostar 10000 = Ok sun_protostar_10000.
Proof.
  unfold sun_protostar. run_methods. replace (1 ^ 4) with 1 by (simpl; lra).
  rewrite Rpower_one. unfold sun_protostar_10000. same_star.
Qed.

Lemma init_high_mass : __init__ 2 0 = Ok high_mass_protostar.
Proof. run_methods. unfold high_mass_protostar. same_star. Qed.

Lemma update_high_mass :
  update high_mass_protostar 25000 = Ok high_mass_red_giant.
Proof.
  unfold high_mass_protostar. run_methods. unfold high_mass_red_giant.
  same_star.
Qed.

Lemma update_red_giant_zero :
  update high_mass_red_giant 0 = Ok high_mass_red_giant_again.
Proof.
  unfold high_mass_red_giant. run_methods. unfold high_mass_red_giant_again.
  same_star.
Qed.

Lemma update_red_giant_long :
  update high_mass_red_giant 2e11 = Ok high_mass_collapsed.
Proof.
  unfold high_mass_red_giant. run_methods. unfold high_mass_collapsed.
  same_star.
Qed.

Lemma update_collapsed :
  update high_mass_collapsed 5e10 = Ok high_mass_rebound.
Proof.
  unfold high_mass_collapsed. run_methods. unfold high_mass_rebound.
  same_star.
Qed.

Lemma init_low_mass : __init__ 0.1 71 = Ok low_mass_protostar.
Proof. run_methods. unfold low_mass_protostar. same_star. Qed.

Lemma init_negative_mass : __init__ (-1) 0 = Ok negative_mass_star.
Proof. run_methods. unfold negative_mass_star. same_star. Qed.

Lemma update_sun_formed : update sun_protostar 50000 = Ok sun_main_sequence.
Proof.
  unfold sun_protostar. run_methods. replace (1 ^ 4) with 1 by (simpl; lra).
  rewrite Rpower_one. unfold sun_main_sequence. same_star.
Qed.

Lemma reachable_sun : reachable sun_protostar.
Proof. apply (reach_init 1 71); [lra | exact init_sun]. Qed.

Lemma reachable_sun_main_sequence : reachable sun_main_sequence.
Proof.
  apply (reach_update sun_protostar _ 50000);
    [exact reachable_sun | lra | exact update_sun_formed].
Qed.

Lemma reachable_red_giant : reachable high_mass_red_giant.
Proof.
  apply (reach_update high_mass_protostar _ 25000);
    [| lra | exact update_high_mass].
  apply (reach_init 2 0); [lra | exact init_high_mass].
Qed.

Lemma reachable_collapsed : reachable high_mass_collapsed.
Proof.
  apply (reach_update high_mass_red_giant _ 2e11);
    [exact reachable_red_giant | lra | exact update_red_giant_long].
Qed.

(** ** Radius and expansion factor (C1) *)

(** A recomputation multiplies the base radius by the expansion factor the
    call started with: line 50 runs before lines 53 and 56. *)
Lemma radius_uses_previous_expansion_factor (self self' : StarPhysics) :
  update_stellar_properties self = Ok self' ->
  exists b,
    calculate_base_radius self' = Ok b /\
    radius self' = num_mul_float b (expansion_factor self).
Proof.
  intros H.
  apply update_stellar_properties_inv in H as (l & p & b & _ & _ & Hb & _ & H).
  apply update_expansion_factor_writes in H. rewrite H.
  exists b. split; [exact Hb | reflexivity].
Qed.

(** C1.  The claim asks for [radius = baseRadius * expansionFactor] with the
    expansion factor of the same call.  [StarPhysics(1.0, 71.0)] has base
    radius 1 and leaves [__init__] with expansion factor 2 and radius 1;
    after [update(10000)] the expansion factor is 1.8 and the radius 2. *)
Theorem radius_lags_expansion_factor :
  __init__ 1 71 = Ok sun_protostar /\
  calculate_base_radius sun_protostar = Ok (Re 1) /\
  expansion_factor sun_protostar = 2 /\
  radius sun_protostar = Re 1 /\
  update sun_protostar 10000 = Ok sun_protostar_10000 /\
  calculate_base_radius sun_protostar_10000 = Ok (Re 1) /\
  expansion_factor sun_protostar_10000 = 1.8 /\
  radius sun_protostar_10000 = Re 2.
Proof.
  assert (Hb : forall s, current_mass s = 1 ->
                         calculate_base_radius s = Ok (Re 1)).
  { intros s Hs. unfold calculate_base_radius. rewrite Hs.
    rewrite float_lt_false by lra. rewrite float_pow_pos by lra.
    rewrite Rpower_one. reflexivity. }
  split; [exact init_sun |].
  split; [apply Hb; reflexivity |].
  split; [reflexivity |]. split; [reflexivity |].
  split; [exact update_sun |].
  split; [apply Hb; reflexivity |].
  split; reflexivity.
Qed.

(** ** The Supernova stage (C2) *)

Lemma update_stellar_properties_stage (self self' : StarPhysics) :
  update_stellar_properties self = Ok self' ->
  stage self' = new_stage_of self (formation_time_of (initial_mass self)).
Proof.
  intros H.
  apply update_stellar_properties_inv in H as (l & p & b & _ & _ & _ & _ & H).
  apply update_expansion_factor_writes in H. rewrite H. reflexivity.
Qed.

Lemma consume_h2_stage (self self' : StarPhysics) (delta_time : R) :
  consume_h2 self delta_time = Ok self' -> stage self' = stage self.
Proof.
  unfold consume_h2. intros H. apply bind_Ok in H as (p & _ & H).
  destruct p; [| discriminate]. injection H as <-. reflexivity.
Qed.

Lemma update_supernova_only_from_supernova
    (self self' : StarPhysics) (delta_time : R) :
  update self delta_time = Ok self' ->
  stage self' = Supernova -> stage self = Supernova.
Proof.
  unfold update. intros H Hs.
  apply bind_Ok in H as (s2 & H2 & H).
  apply update_stellar_properties_stage in H. rewrite H in Hs.
  apply new_stage_of_supernova in Hs.
  assert (E : stage s2 = stage self).
  { simpl in H2. destruct (Stage_eqb (stage self) MainSequence).
    - apply consume_h2_stage in H2. exact H2.
    - injection H2 as <-. reflexivity. }
  rewrite <- E. destruct (Stage_eqb (stage s2) RedGiant); exact Hs.
Qed.

Lemma init_not_supernova (mass h2 : R) :
  in_stage (__init__ mass h2) Supernova = false.
Proof.
  destruct (__init__ mass h2) as [star |] eqn:H; [| reflexivity].
  simpl. unfold __init__ in H. apply bind_Ok in H as (s & H & E).
  injection E as <-. simpl.
  apply update_stellar_properties_stage in H.
  destruct (Stage_eqb (stage s) Supernova) eqn:Hs; [| reflexivity].
  apply Stage_eqb_eq in Hs. rewrite H in Hs.
  apply new_stage_of_supernova in Hs. discriminate.
Qed.

Lemma update_all_not_supernova (delta_times : list R) (star : StarPhysics) :
  Stage_eqb (stage star) Supernova = false ->
  in_stage (update_all star delta_times) Supernova = false.
Proof.
  revert star. induction delta_times as [| dt rest IH]; intros star Hs.
  - exact Hs.
  - simpl. destruct (update star dt) as [star' |] eqn:H; [| reflexivity].
    simpl. apply IH.
    destruct (Stage_eqb (stage star') Supernova) eqn:Hs'; [| reflexivity].
    apply Stage_eqb_eq in Hs'.
    apply (update_supernova_only_from_supernova _ _ _ H) in Hs'.
    apply Stage_eqb_eq in Hs'. congruence.
Qed.

(** C2.  The claim says some star reaches the Supernova stage.  No star
    does: whatever the initial mass and fuel and whatever the elapsed times,
    the object the host holds is never in stage Supernova, because line 104
    answers Supernova only when the previous stage already is Supernova and
    [__init__] starts from Protostar. *)
Theorem supernova_unreachable (mass h2 : R) (delta_times : list R) :
  in_stage (simulate mass h2 delta_times) Supernova = false.
Proof.
  unfold simulate.
  pose proof (init_not_supernova mass h2) as H.
  destruct (__init__ mass h2) as [star |]; [| reflexivity].
  simpl. apply update_all_not_supernova. exact H.
Qed.

(** The high-mass star of the claim, past its formation time and without
    fuel, is a Red Giant. *)
Example high_mass_star_is_red_giant :
  simulate 2 0 [25000] = Ok high_mass_red_giant.
Proof.
  unfold simulate. rewrite init_high_mass. simpl.
  rewrite update_high_mass. reflexivity.
Qed.

(** ** The stage cascade of the specification (C3) *)

Lemma new_stage_of_transition_rule (self : StarPhysics) :
  new_stage_of self (formation_time_of (initial_mass self))
  = transition_rule (stage self) (age self) (initial_mass self)
      (current_mass self) (current_h2 self).
Proof.
  unfold new_stage_of, transition_rule, float_lt, float_gt, float_le.
  replace (formationTime (initial_mass self))
    with (formation_time_of (initial_mass self))
    by (unfold formationTime, formation_time_of, Rdiv; ring).
  destruct (Rlt_dec _ _); [reflexivity |].
  destruct (Rgt_dec (current_h2 self) 0.1) as [Hh | Hh]; [reflexivity |].
  destruct (Rgt_dec (current_mass self) 1.44).
  - destruct (stage self); reflexivity.
  - destruct (Rle_dec (current_h2 self) 0.1); [| lra].
    destruct (stage self); reflexivity.
Qed.

(** A recomputation writes neither the construction parameters nor mass,
    fuel and age. *)
Lemma update_stellar_properties_frame (self self' : StarPhysics) :
  update_stellar_properties self = Ok self' ->
  initial_mass self' = initial_mass self /\
  current_mass self' = current_mass self /\
  h2_percentage self' = h2_percentage self /\
  current_h2 self' = current_h2 self /\
  age self' = age self /\
  initial_radius self' = initial_radius self.
Proof.
  intros H.
  apply update_stellar_properties_inv in H as (l & p & b & _ & _ & _ & _ & H).
  apply update_expansion_factor_writes in H. rewrite H.
  repeat split; reflexivity.
Qed.

(** The object [update] recomputes (lines 134-145 done) has the stage and
    the construction parameters the call started with, and the age moved
    by the elapsed time. *)
Lemma update_recomputes (self self' : StarPhysics) (delta_time : R) :
  update self delta_time = Ok self' ->
  exists mid,
    update_stellar_properties mid = Ok self' /\
    stage mid = stage self /\ age mid = age self + delta_time /\
    initial_mass mid = initial_mass self /\
    h2_percentage mid = h2_percentage self /\
    expansion_factor mid = expansion_factor self /\
    current_mass mid
    = (if Stage_eqb (stage self) RedGiant
       then current_mass self - 1e-11 * current_mass self * delta_time
       else current_mass self) /\
    (stage self <> MainSequence -> current_h2 mid = current_h2 self).
Proof.
  unfold update. intros H.
  apply bind_Ok in H as (s2 & H2 & H).
  assert (E : stage s2 = stage self /\ age s2 = age self + delta_time /\
              initial_mass s2 = initial_mass self /\
              h2_percentage s2 = h2_percentage self /\
              expansion_factor s2 = expansion_factor self /\
              current_mass s2 = current_mass self /\
              (stage self <> MainSequence -> current_h2 s2 = current_h2 self)).
  { simpl in H2. destruct (Stage_eqb (stage self) MainSequence) eqn:Es.
    - unfold consume_h2 in H2. apply bind_Ok in H2 as (p & _ & H2).
      destruct p; [| discriminate]. injection H2 as <-.
      apply Stage_eqb_eq in Es.
      repeat split; try reflexivity. intros N. contradiction.
    - injection H2 as <-. repeat split; reflexivity. }
  destruct E as (E1 & E2 & E3 & E4 & E5 & E6 & E7).
  eexists. split; [exact H |].
  rewrite E1.
  destruct (Stage_eqb (stage self) RedGiant); simpl;
    repeat split; try assumption; rewrite ?E6; reflexivity.
Qed.

(** A recomputation stores the cascade's answer for the stage it started
    with and the age, mass and fuel it ran on. *)
Lemma update_stellar_properties_cascade (self self' : StarPhysics) :
  update_stellar_properties self = Ok self' ->
  stage self'
  = transition_rule (stage self) (age self') (initial_mass self')
      (current_mass self') (current_h2 self').
Proof.
  intros H.
  destruct (update_stellar_properties_frame _ _ H)
    as (F1 & F2 & _ & F4 & F5 & _).
  rewrite (update_stellar_properties_stage _ _ H), F1, F2, F4, F5.
  apply new_stage_of_transition_rule.
Qed.

(** C3.  The stage a recomputation stores is the five-rule cascade of the
    specification over the previous stage and the age, the mass and the
    fuel the recomputation runs on: [determine_stage] returns it on every
    object with a non-zero initial mass, whatever its stage; the star
    [update] returns has it for the stage the call started with and the
    age, mass and fuel the call ends with; and the star [__init__] returns
    has it for the previous stage Protostar. *)
Theorem determine_stage_follows_cascade :
  (forall self,
     initial_mass self <> 0 ->
     exists s1,
       determine_stage self = Ok s1 /\
       stage s1 = transition_rule (stage self) (age self) (initial_mass self)
                    (current_mass self) (current_h2 self)) /\
  (forall self delta_time self',
     update self delta_time = Ok self' ->
     stage self' = transition_rule (stage self) (age self')
                     (initial_mass self') (current_mass self')
                     (current_h2 self')) /\
  (forall mass h2 star,
     __init__ mass h2 = Ok star ->
     stage star = transition_rule Protostar (age star) (initial_mass star)
                    (current_mass star) (current_h2 star)).
Proof.
  split; [| split].
  - intros self Hm. eexists.
    split; [apply determine_stage_ok; exact Hm |].
    simpl. apply new_stage_of_transition_rule.
  - intros self delta_time self' H.
    apply update_recomputes in H as (mid & H & Hs & _).
    rewrite <- Hs. apply update_stellar_properties_cascade. exact H.
  - intros mass h2 star H. unfold __init__ in H.
    apply bind_Ok in H as (s1 & H & E). injection E as <-.
    apply update_stellar_properties_cascade in H. exact H.
Qed.

Lemma determine_stage_follows_cascade_witness :
  update sun_protostar 50000 = Ok sun_main_sequence /\
  stage sun_main_sequence = transition_rule Protostar 50000 1 1 71 /\
  transition_rule Protostar 50000 1 1 71 = MainSequence /\
  stage sun_protostar = transition_rule Protostar 0 1 1 71 /\
  exists s1,
    determine_stage high_mass_protostar = Ok s1 /\
    stage s1 = transition_rule Protostar 0 2 2 0.
Proof.
  destruct determine_stage_follows_cascade as (Hd & Hu & Hi).
  split; [exact update_sun_formed |].
  split; [exact (Hu _ _ _ update_sun_formed) |].
  split; [symmetry; exact (Hu _ _ _ update_sun_formed) |].
  split; [exact (Hi _ _ _ init_sun) |].
  apply (Hd high_mass_protostar). simpl. lra.
Defined.

(** ** What [update] does to age, mass and fuel *)

Lemma aged_stage (self : StarPhysics) (delta_time : R) :
  stage (aged self delta_time) = stage self.
Proof. destruct self as [? ? ? ? ? ? ? ? ? st ?]. destruct st; reflexivity. Qed.

Lemma aged_age (self : StarPhysics) (delta_time : R) :
  age (aged self delta_time) = age self + delta_time.
Proof. destruct self as [? ? ? ? ? ? ? ? ? st ?]. destruct st; reflexivity. Qed.

Lemma aged_initial_mass (self : StarPhysics) (delta_time : R) :
  initial_mass (aged self delta_time) = initial_mass self.
Proof. destruct self as [? ? ? ? ? ? ? ? ? st ?]. destruct st; reflexivity. Qed.

Lemma aged_h2_percentage (self : StarPhysics) (delta_time : R) :
  h2_percentage (aged self delta_time) = h2_percentage self.
Proof. destruct self as [? ? ? ? ? ? ? ? ? st ?]. destruct st; reflexivity. Qed.

Lemma aged_expansion_factor (self : StarPhysics) (delta_time : R) :
  expansion_factor (aged self delta_time) = expansion_factor self.
Proof. destruct self as [? ? ? ? ? ? ? ? ? st ?]. destruct st; reflexivity. Qed.

Lemma aged_current_mass (self : StarPhysics) (delta_time : R) :
  current_mass (aged self delta_time)
  = if Stage_eqb (stage self) RedGiant
    then current_mass self - 1e-11 * current_mass self * delta_time
    else current_mass self.
Proof. destruct self as [? ? ? ? ? ? ? ? ? st ?]. destruct st; reflexivity. Qed.

Lemma aged_current_h2 (self : StarPhysics) (delta_time : R) :
  current_h2 (aged self delta_time)
  = if Stage_eqb (stage self) MainSequence
    then Rmax 0 (current_h2 self
                 - 0.1 * Rpower (current_mass self) 3.5 / 1e10 * delta_time)
    else current_h2 self.
Proof. destruct self as [? ? ? ? ? ? ? ? ? st ?]. destruct st; reflexivity. Qed.

(** ** Ticks of no elapsed time (C4) *)

(** C4, as stated, fails: a reachable Red Giant whose expansion factor a
    call of [update(0)] moves from 2.1 to 2.2. *)
Lemma advance_zero_moves_red_giant :
  reachable high_mass_red_giant /\
  update high_mass_red_giant 0 = Ok high_mass_red_giant_again /\
  expansion_factor high_mass_red_giant = 2.1 /\
  expansion_factor high_mass_red_giant_again = 2.2 /\
  expansion_factor high_mass_red_giant_again
  <> expansion_factor high_mass_red_giant.
Proof.
  split; [exact reachable_red_giant |].
  split; [exact update_red_giant_zero |].
  split; [reflexivity |]. split; [reflexivity |].
  simpl. lra.
Qed.

(** In the Main Sequence stage without a positive lifetime a recomputation
    that keeps the stage keeps the expansion factor. *)
Lemma update_stellar_properties_no_lifetime (self self' : StarPhysics) :
  update_stellar_properties self = Ok self' ->
  0 < initial_mass self ->
  stage self = MainSequence ->
  new_stage_of self (formation_time_of (initial_mass self)) = MainSequence ->
  ~ lifetime_of (initial_mass self) (h2_percentage self) > 0 ->
  expansion_factor self' = expansion_factor self.
Proof.
  intros H Hm Hs Hn Hl.
  apply update_stellar_properties_inv in H as (l & p & b & _ & _ & _ & _ & H).
  rewrite update_expansion_factor_main_sequence in H
    by (simpl; assumption).
  simpl in H. rewrite float_gt_false in H by lra.
  injection H as <-. simpl. rewrite Hn, Hs. reflexivity.
Qed.

(** One tick of no elapsed time on a settled star. *)
Lemma update_zero_settled (s : StarPhysics) :
  settled s ->
  exists s',
    update s 0 = Ok s' /\ settled s' /\
    initial_mass s' = initial_mass s /\ h2_percentage s' = h2_percentage s /\
    age s' = age s /\ current_mass s' = current_mass s /\
    current_h2 s' = current_h2 s /\ stage s' = stage s /\
    luminosity s' = luminosity s /\ temperature s' = temperature s /\
    (stage s = Protostar \/ stage s = MainSequence ->
     expansion_factor s' = expansion_factor s).
Proof.
  intros Hset.
  destruct (update_settled s 0 Hset)
    as (s' & H & Hset' & F1 & F2 & F3 & F4 & F5 & F6).
  assert (Hmass : current_mass s' = current_mass s).
  { rewrite F2, aged_current_mass.
    destruct (Stage_eqb (stage s) RedGiant); lra. }
  assert (Hh2 : current_h2 s' = current_h2 s).
  { rewrite F4, aged_current_h2.
    destruct (Stage_eqb (stage s) MainSequence) eqn:E; [| reflexivity].
    apply Stage_eqb_eq in E.
    destruct (settled_main_sequence s Hset E) as (Hh & _).
    rewrite Rmult_0_r, Rminus_0_r. apply Rmax_right. lra. }
  assert (Hage : age s' = age s) by lra.
  assert (Hcascade :
            new_stage_of (aged s 0) (formation_time_of (initial_mass s))
            = stage s).
  { destruct Hset as (_ & _ & Hs & _).
    transitivity (new_stage_of s (formation_time_of (initial_mass s)));
      [| symmetry; exact Hs].
    apply new_stage_of_reads.
    - rewrite aged_age. lra.
    - rewrite <- F4. exact Hh2.
    - rewrite <- F2. exact Hmass.
    - apply aged_stage. }
  assert (Hstage : stage s' = stage s) by (rewrite F6; exact Hcascade).
  exists s'. split; [exact H |]. split; [exact Hset' |].
  split; [exact F1 |]. split; [exact F3 |]. split; [exact Hage |].
  split; [exact Hmass |]. split; [exact Hh2 |]. split; [exact Hstage |].
  pose proof Hset as Hset0.
  destruct Hset as (Hm & Hd & Hs & Hl & (p & Hp & Ht) & Hpro & Hms).
  destruct Hset' as (Hm' & Hd' & Hs' & Hl' & (p' & Hp' & Ht') & Hpro' & Hms').
  assert (Hlum : luminosity s' = luminosity s).
  { rewrite Hmass in Hl'. congruence. }
  split; [exact Hlum |].
  split.
  { rewrite Hlum in Hp'. rewrite Ht, Ht'. congruence. }
  intros [E | E].
  - rewrite Hpro by exact E. rewrite Hpro' by congruence.
    rewrite F1, Hage. reflexivity.
  - destruct (Rgt_dec (lifetime_of (initial_mass s) (h2_percentage s)) 0)
      as [Hpos | Hpos].
    + rewrite Hms by assumption.
      rewrite Hms'; rewrite ?F1, ?F3; congruence.
    + rewrite update_aged in H
        by (intros _; destruct (settled_main_sequence s Hset0 E) as (_ & ->);
            exact Hm).
      pose proof (aged_initial_mass s 0) as Hia.
      pose proof (aged_h2_percentage s 0) as Hha.
      rewrite (update_stellar_properties_no_lifetime _ _ H).
      * apply aged_expansion_factor.
      * rewrite Hia. exact Hm.
      * rewrite aged_stage. exact E.
      * rewrite Hia, Hcascade. exact E.
      * rewrite Hia, Hha. exact Hpos.
Qed.

(** C4, amended.  On every reachable star any number of calls [update(0)]
    return and leave age, mass, fuel, stage, luminosity and temperature as
    they are; the expansion factor stays as it is in the Protostar and Main
    Sequence stages. *)
Theorem advance_zero_keeps_physical_state (s : StarPhysics) (n : nat) :
  reachable s ->
  exists s',
    update_all s (repeat 0 n) = Ok s' /\
    age s' = age s /\ current_mass s' = current_mass s /\
    current_h2 s' = current_h2 s /\ stage s' = stage s /\
    luminosity s' = luminosity s /\ temperature s' = temperature s /\
    (stage s = Protostar \/ stage s = MainSequence ->
     expansion_factor s' = expansion_factor s).
Proof.
  intros Hr. apply reachable_settled in Hr. revert s Hr.
  induction n as [| n IH]; intros s Hset.
  - exists s. simpl. repeat split; reflexivity.
  - destruct (update_zero_settled s Hset)
      as (s1 & H & Hset1 & _ & _ & A1 & A2 & A3 & A4 & A5 & A6 & A7).
    destruct (IH s1 Hset1) as (s' & H' & B1 & B2 & B3 & B4 & B5 & B6 & B7).
    exists s'. simpl. rewrite H. simpl.
    split; [exact H' |].
    repeat split; try congruence.
    intros E. rewrite B7 by (rewrite A4; exact E). apply A7. exact E.
Qed.

Lemma advance_zero_keeps_physical_state_witness :
  reachable sun_protostar /\
  exists s',
    update_all sun_protostar (repeat 0 3) = Ok s' /\
    age s' = 0 /\ current_mass s' = 1 /\
    current_h2 s' = 71 /\ stage s' = Protostar /\
    luminosity s' = Re 1 /\ temperature s' = Re 5778 /\
    (Protostar = Protostar \/ Protostar = MainSequence ->
     expansion_factor s' = 2).
Proof.
  split; [exact reachable_sun |].
  exact (advance_zero_keeps_physical_state sun_protostar 3 reachable_sun).
Defined.

(** ** The sign of the mass (C5) *)


(** ** Emission (C6) *)

(** With a positive real luminosity [get_emission] is an upper clamp
    only. *)
Lemma get_emission_positive (self : StarPhysics) (l : R) :
  luminosity self = Re l -> 0 < l ->
  get_emission self = Ok (Finite (Rmin 1.0 (0.2 + log10 l / 5))).
Proof.
  intros H Hl. unfold get_emission. rewrite H.
  destruct (Rlt_dec 0 l); [reflexivity | contradiction].
Qed.

Lemma Rpower_tenth_above_one (y : R) : 1 < y -> Rpower 0.1 y < 0.1.
Proof.
  intros Hy.
  assert (Hln : ln 0.1 < 0).
  { rewrite <- ln_1. apply ln_increasing; lra. }
  unfold Rpower.
  assert (H : y * ln 0.1 < ln 0.1) by nra.
  apply exp_increasing in H. rewrite exp_ln in H by lra. exact H.
Qed.

Lemma log10_below_tenth (x : R) : 0 < x -> x < 0.1 -> log10 x < -1.
Proof.
  intros H0 H1. unfold log10.
  assert (H10 : 0 < ln 10).
  { rewrite <- ln_1. apply ln_increasing; lra. }
  assert (Hx : ln x < - ln 10).
  { rewrite <- ln_Rinv by lra. apply ln_increasing; lra. }
  apply (Rmult_lt_reg_r (ln 10)); [exact H10 |].
  unfold Rdiv. rewrite Rmult_assoc, Rinv_l by lra. lra.
Qed.

(** C6.  The claim asks for a result in [0, 1].  [StarPhysics(0.1, 71.0)]
    has the positive luminosity [0.23 * 0.1 ** 2.3], below 0.1, and
    [get_emission] returns [0.2 + log10(luminosity) / 5], a negative
    number: line 165 clamps from above only. *)
Theorem emission_negative_for_low_mass_star :
  exists l e,
    __init__ 0.1 71 = Ok low_mass_protostar /\
    luminosity low_mass_protostar = Re l /\ 0 < l /\
    get_emission low_mass_protostar = Ok (Finite e) /\
    e = 0.2 + log10 l / 5 /\ e < 0.
Proof.
  exists (0.23 * Rpower 0.1 2.3).
  assert (Hpos : 0 < Rpower 0.1 2.3) by apply Rpower_pos.
  assert (Hlt : Rpower 0.1 2.3 < 0.1) by (apply Rpower_tenth_above_one; lra).
  assert (Hlog : log10 (0.23 * Rpower 0.1 2.3) < -1)
    by (apply log10_below_tenth; lra).
  exists (0.2 + log10 (0.23 * Rpower 0.1 2.3) / 5).
  split; [exact init_low_mass |].
  split; [reflexivity |]. split; [lra |].
  split.
  - rewrite (get_emission_positive _ (0.23 * Rpower 0.1 2.3))
      by (try reflexivity; lra).
    rewrite Rmin_right by lra. reflexivity.
  - split; [reflexivity | lra].
Qed.

(** ** Construction with a non-positive mass (C7) *)

Lemma formation_time_of_negative (m : R) : m < 0 -> formation_time_of m < 0.
Proof.
  intros Hm. unfold formation_time_of, Rdiv. rewrite Rmult_1_l.
  assert (H : / m < 0) by (apply Rinv_lt_0_compat; exact Hm).
  lra.
Qed.

Lemma init_zero_mass (h2 : R) : __init__ 0 h2 = Raise ZeroDivisionError.
Proof.
  unfold __init__.
  rewrite update_stellar_properties_zero_mass by reflexivity.
  reflexivity.
Qed.

Lemma init_negative_mass_with_fuel (mass h2 : R) :
  mass < 0 -> h2 > 0.1 -> __init__ mass h2 = Raise TypeError.
Proof.
  intros Hm Hh. unfold __init__.
  set (s0 := mkStar _ _ _ _ _ _ _ _ _ _ _).
  destruct (mass_luminosity_total (current_mass s0)) as (l & Hl & _).
  destruct (num_pow_quarter_total l) as (p & Hp).
  destruct (calculate_base_radius_total s0) as (b & Hb).
  rewrite (update_stellar_properties_unfold s0 l p b)
    by (try assumption; simpl; lra).
  pose proof (formation_time_of_negative mass Hm) as Hft.
  assert (Hs : new_stage_of s0 (formation_time_of (initial_mass s0))
               = MainSequence).
  { unfold new_stage_of. simpl.
    rewrite float_lt_false by lra. rewrite float_gt_true by lra.
    reflexivity. }
  unfold update_expansion_factor, before_expansion_update. cbv zeta.
  rewrite Hs. simpl stage. cbv iota.
  rewrite get_main_sequence_lifetime_neg by exact Hm.
  reflexivity.
Qed.

Lemma init_negative_mass_without_fuel (mass h2 : R) :
  mass < 0 -> h2 <= 0.1 ->
  exists star,
    __init__ mass h2 = Ok star /\
    initial_mass star = mass /\ current_mass star = mass /\
    stage star = RedGiant.
Proof.
  intros Hm Hh. unfold __init__.
  set (s0 := mkStar _ _ _ _ _ _ _ _ _ _ _).
  destruct (mass_luminosity_total (current_mass s0)) as (l & Hl & _).
  destruct (num_pow_quarter_total l) as (p & Hp).
  destruct (calculate_base_radius_total s0) as (b & Hb).
  rewrite (update_stellar_properties_unfold s0 l p b)
    by (try assumption; simpl; lra).
  pose proof (formation_time_of_negative mass Hm) as Hft.
  assert (Hs : new_stage_of s0 (formation_time_of (initial_mass s0))
               = RedGiant).
  { unfold new_stage_of. simpl.
    rewrite float_lt_false by lra. rewrite float_gt_false by lra.
    rewrite float_gt_false by lra. rewrite float_le_true by lra.
    reflexivity. }
  unfold update_expansion_factor, before_expansion_update. cbv zeta.
  rewrite Hs. simpl stage. cbv iota. simpl bind.
  eexists. split; [reflexivity |]. repeat split; reflexivity.
Qed.

(** C7, as stated, fails: [StarPhysics(-1.0, 0.0)] is built, and
    [StarPhysics(0.0, 71.0)] fails with [ZeroDivisionError]. *)
Lemma init_accepts_negative_mass :
  -1 <= 0 /\
  __init__ (-1) 0 = Ok negative_mass_star /\
  __init__ 0 71 = Raise ZeroDivisionError /\
  __init__ 0 71 <> Raise InvalidParameterError.
Proof.
  split; [lra |]. split; [exact init_negative_mass |].
  split; [apply init_zero_mass |].
  rewrite init_zero_mass. discriminate.
Qed.

(** C7, amended.  [__init__] does not validate the mass and never raises
    [InvalidParameterError]: with mass 0 it fails with [ZeroDivisionError];
    with a negative mass between -1e30 and -1e-30, where no power leaves
    the range of a double, it fails with [TypeError] when the fuel is above
    0.1 and builds a star, in stage Red Giant, otherwise. *)
Theorem init_without_validation (mass h2 : R) :
  mass <= 0 ->
  __init__ mass h2 <> Raise InvalidParameterError /\
  (mass = 0 -> __init__ mass h2 = Raise ZeroDivisionError) /\
  (-1e30 <= mass <= -1e-30 -> h2 > 0.1 ->
   __init__ mass h2 = Raise TypeError) /\
  (-1e30 <= mass <= -1e-30 -> h2 <= 0.1 ->
   exists star,
     __init__ mass h2 = Ok star /\
     initial_mass star = mass /\ current_mass star = mass /\
     stage star = RedGiant).
Proof.
  intros Hm.
  split.
  - destruct (Req_dec_T mass 0) as [-> | Hz].
    + rewrite init_zero_mass. discriminate.
    + destruct (Rgt_dec h2 0.1) as [Hh | Hh].
      * rewrite init_negative_mass_with_fuel by lra. discriminate.
      * destruct (init_negative_mass_without_fuel mass h2) as (s & -> & _);
          [lra | lra | discriminate].
  - split; [intros ->; apply init_zero_mass |].
    split.
    + intros Hrange Hh. apply init_negative_mass_with_fuel; lra.
    + intros Hrange Hh. apply init_negative_mass_without_fuel; lra.
Qed.

Lemma init_without_validation_witness :
  -1 <= 0 /\ -1e30 <= -1 <= -1e-30 /\
  exists star,
    __init__ (-1) 0 = Ok star /\
    initial_mass star = -1 /\ current_mass star = -1 /\
    stage star = RedGiant.
Proof.
  split; [lra |]. split; [lra |].
  apply (init_without_validation (-1) 0); lra.
Defined.

(** ** Negative elapsed time (C8) *)

(** C8, as stated, fails: [update(-1)] on the star [StarPhysics(1.0, 71.0)]
    returns, and returns a star of age -1. *)
Lemma update_accepts_negative_time :
  -1 < 0 /\
  update sun_protostar (-1) <> Raise InvalidArgumentError /\
  exists star',
    update sun_protostar (-1) = Ok star' /\
    age star' = -1 /\ age star' <> age sun_protostar.
Proof.
  split; [lra |].
  destruct (update_settled sun_protostar (-1) (reachable_settled _ reachable_sun))
    as (s' & H & _ & _ & _ & _ & _ & Hage & _).
  simpl in Hage.
  split; [rewrite H; discriminate |].
  exists s'. split; [exact H |]. split; [lra |]. simpl. lra.
Qed.

Lemma bind_Raise {A B : Type} (c : result A) (k : A -> result B) (e : exn) :
  bind c k = Raise e ->
  c = Raise e \/ exists a, c = Ok a /\ k a = Raise e.
Proof.
  destruct c as [a | e']; simpl; [eauto |].
  intros H. injection H as ->. left. reflexivity.
Qed.

Lemma float_div_raises (x y : R) (e : exn) :
  float_div x y = Raise e -> e = ZeroDivisionError.
Proof.
  unfold float_div. destruct (Req_dec_T y 0); [| discriminate].
  intros H. injection H as <-. reflexivity.
Qed.

Lemma float_pow_raises (x y : R) (e : exn) :
  float_pow x y = Raise e -> e = ZeroDivisionError.
Proof.
  unfold float_pow. destruct (Rlt_dec 0 x); [discriminate |].
  destruct (Req_dec_T x 0); [| discriminate].
  destruct (Rlt_dec y 0); [| destruct (Req_dec_T y 0); discriminate].
  intros H. injection H as <-. reflexivity.
Qed.

(** No statement of a recomputation raises anything but the two exceptions
    of the model. *)
Lemma update_stellar_properties_raises (self : StarPhysics) (e : exn) :
  update_stellar_properties self = Raise e ->
  e = ZeroDivisionError \/ e = TypeError.
Proof.
  unfold update_stellar_properties. intros H.
  apply bind_Raise in H as [H | (l & _ & H)].
  { unfold mass_luminosity in H.
    destruct (float_lt _ 0.43).
    - apply bind_Raise in H as [H | (? & _ & H)]; [| discriminate].
      left. exact (float_pow_raises _ _ _ H).
    - destruct (float_lt _ 2); [discriminate |].
      apply bind_Raise in H as [H | (? & _ & H)]; [| discriminate].
      left. exact (float_pow_raises _ _ _ H). }
  cbv zeta in H.
  apply bind_Raise in H as [H | (p & _ & H)].
  { simpl in H. destruct l; [| discriminate].
    left. exact (float_pow_raises _ _ _ H). }
  apply bind_Raise in H as [H | (b & _ & H)].
  { unfold calculate_base_radius in H.
    destruct (float_lt _ _); left; exact (float_pow_raises _ _ _ H). }
  apply bind_Raise in H as [H | (s4 & _ & H)].
  { unfold determine_stage, get_formation_time in H.
    apply bind_Raise in H as [H | (? & _ & H)]; [| discriminate].
    apply bind_Raise in H as [H | (? & _ & H)]; [| discriminate].
    left. exact (float_div_raises _ _ _ H). }
  unfold update_expansion_factor in H.
  destruct (stage s4); try discriminate.
  - unfold get_formation_time in H.
    apply bind_Raise in H as [H | (? & _ & H)].
    + apply bind_Raise in H as [H | (? & _ & H)]; [| discriminate].
      left. exact (float_div_raises _ _ _ H).
    + apply bind_Raise in H as [H | (? & _ & H)]; [| discriminate].
      left. exact (float_div_raises _ _ _ H).
  - apply bind_Raise in H as [H | (v & _ & H)].
    + unfold get_main_sequence_lifetime in H.
      apply bind_Raise in H as [H | (? & _ & H)];
        [left; exact (float_pow_raises _ _ _ H) |].
      apply bind_Raise in H as [H | (? & _ & H)]; [| discriminate].
      left. exact (float_div_raises _ _ _ H).
    + destruct v; [| injection H as <-; right; reflexivity].
      destruct (float_gt _ _); [| discriminate].
      apply bind_Raise in H as [H | (? & _ & H)]; [| discriminate].
      left. exact (float_div_raises _ _ _ H).
Qed.

Lemma update_raises (self : StarPhysics) (delta_time : R) (e : exn) :
  update self delta_time = Raise e ->
  e = ZeroDivisionError \/ e = TypeError.
Proof.
  unfold update. intros H.
  apply bind_Raise in H as [H | (s2 & _ & H)].
  - simpl in H. destruct (Stage_eqb _ MainSequence); [| discriminate].
    unfold consume_h2 in H.
    apply bind_Raise in H as [H | (p & _ & H)];
      [left; exact (float_pow_raises _ _ _ H) |].
    destruct p; [discriminate |]. injection H as <-. right. reflexivity.
  - exact (update_stellar_properties_raises _ _ H).
Qed.

(** C8, amended.  [update] does not validate the elapsed time: a call with
    a negative elapsed time raises no [InvalidArgumentError] on any object;
    whenever it returns, the age of the star it returns is the previous age
    plus that negative time; and it does return on every reachable star
    that is not a Red Giant. *)
Theorem update_without_validation (star : StarPhysics) (delta_time : R) :
  delta_time < 0 ->
  update star delta_time <> Raise InvalidArgumentError /\
  (forall star',
     update star delta_time = Ok star' ->
     age star' = age star + delta_time) /\
  (reachable star -> stage star <> RedGiant ->
   exists star', update star delta_time = Ok star').
Proof.
  intros Hdt. split; [| split].
  - intros H. apply update_raises in H as [H | H]; discriminate.
  - intros star' H.
    apply update_recomputes in H as (mid & H & _ & Hage & _).
    destruct (update_stellar_properties_frame _ _ H) as (_ & _ & _ & _ & F & _).
    rewrite F. exact Hage.
  - intros Hr _.
    destruct (update_settled star delta_time (reachable_settled _ Hr))
      as (s' & H & _).
    exists s'. exact H.
Qed.

Lemma update_without_validation_witness :
  -1 < 0 /\
  update sun_protostar (-1) <> Raise InvalidArgumentError /\
  (forall star',
     update sun_protostar (-1) = Ok star' -> age star' = 0 + -1) /\
  exists star', update sun_protostar (-1) = Ok star'.
Proof.
  destruct (update_without_validation sun_protostar (-1)) as (H1 & H2 & H3);
    [lra |].
  split; [lra |]. split; [exact H1 |]. split; [exact H2 |].
  apply H3; [exact reachable_sun | discriminate].
Defined.

(** ** Mass loss (C9) *)

(** C9, as stated, fails: the reachable Red Giant of mass -2 has mass -1
    after [update(5e10)]; its mass increased. *)
Lemma mass_increases_when_negative :
  reachable high_mass_collapsed /\ 0 <= 5e10 /\
  update high_mass_collapsed 5e10 = Ok high_mass_rebound /\
  current_mass high_mass_collapsed = -2 /\
  current_mass high_mass_rebound = -1 /\
  current_mass high_mass_collapsed < current_mass high_mass_rebound.
Proof.
  split; [exact reachable_collapsed |]. split; [lra |].
  split; [exact update_collapsed |].
  split; [reflexivity |]. split; [reflexivity |]. simpl. lra.
Qed.

(** C9, amended.  On every reachable star a call of [update] with a
    non-negative elapsed time returns; in the Red Giant stage the mass [m]
    becomes [m - 1e-11 * m * delta_time], in every other stage it is left
    as it is, and a mass that is not negative does not increase. *)
Theorem mass_changes_only_in_red_giant
    (star : StarPhysics) (delta_time : R) :
  reachable star -> 0 <= delta_time ->
  exists star',
    update star delta_time = Ok star' /\
    (stage star = RedGiant ->
     current_mass star'
     = current_mass star - 1e-11 * current_mass star * delta_time) /\
    (stage star <> RedGiant -> current_mass star' = current_mass star) /\
    (0 <= current_mass star -> current_mass star' <= current_mass star).
Proof.
  intros Hr Hdt.
  destruct (update_settled star delta_time (reachable_settled _ Hr))
    as (s' & H & _ & _ & Hm & _).
  rewrite aged_current_mass in Hm.
  exists s'. split; [exact H |].
  split; [| split].
  - intros E. rewrite E in Hm. exact Hm.
  - intros E. destruct (Stage_eqb (stage star) RedGiant) eqn:Es;
      [apply Stage_eqb_eq in Es; contradiction | exact Hm].
  - intros Hpos. rewrite Hm.
    destruct (Stage_eqb (stage star) RedGiant); [nra | lra].
Qed.

Lemma mass_changes_only_in_red_giant_witness :
  reachable high_mass_red_giant /\ 0 <= 1000 /\
  exists star',
    update high_mass_red_giant 1000 = Ok star' /\
    (RedGiant = RedGiant -> current_mass star' = 2 - 1e-11 * 2 * 1000) /\
    (RedGiant <> RedGiant -> current_mass star' = 2) /\
    (0 <= 2 -> current_mass star' <= 2).
Proof.
  split; [exact reachable_red_giant |]. split; [lra |].
  apply (mass_changes_only_in_red_giant high_mass_red_giant 1000);
    [exact reachable_red_giant | lra].
Defined.

(** ** The Main Sequence lifetime (C10) *)

(** C10.  With a positive initial mass [get_main_sequence_lifetime] is
    [1e10 * initial_mass ** -2.5 * (h2_percentage / 71)], whatever the
    current mass and fuel; in the Main Sequence stage
    [update_expansion_factor] divides the age by it only when it is
    positive, and returns the star as it is otherwise, in particular when
    the initial fuel fraction is zero. *)
Theorem main_sequence_lifetime_guard (self : StarPhysics) :
  0 < initial_mass self ->
  let lifetime :=
    1e10 * Rpower (initial_mass self) (-2.5) * (h2_percentage self / 71) in
  get_main_sequence_lifetime self = Ok (Re lifetime) /\
  (forall other,
     initial_mass other = initial_mass self ->
     h2_percentage other = h2_percentage self ->
     get_main_sequence_lifetime other = Ok (Re lifetime)) /\
  (stage self = MainSequence -> lifetime > 0 ->
   update_expansion_factor self
   = Ok (set_expansion_factor self
           (1.0 + Rmin 1.0 (age self / lifetime) * 0.5))) /\
  (stage self = MainSequence -> ~ lifetime > 0 ->
   update_expansion_factor self = Ok self) /\
  (stage self = MainSequence -> h2_percentage self = 0 ->
   update_expansion_factor self = Ok self).
Proof.
  intros Hm lifetime.
  assert (Hl : get_main_sequence_lifetime self = Ok (Re lifetime))
    by (apply get_main_sequence_lifetime_pos; exact Hm).
  split; [exact Hl |].
  split.
  { intros other E1 E2. rewrite get_main_sequence_lifetime_pos by lra.
    rewrite E1, E2. reflexivity. }
  assert (Hguard : stage self = MainSequence -> ~ lifetime > 0 ->
                   update_expansion_factor self = Ok self).
  { intros Hs Hn.
    rewrite update_expansion_factor_main_sequence by assumption.
    cbv zeta. fold lifetime. unfold lifetime_of. fold lifetime.
    rewrite float_gt_false by lra. reflexivity. }
  split; [| split].
  - intros Hs Hp.
    rewrite update_expansion_factor_main_sequence by assumption.
    cbv zeta. unfold lifetime_of. fold lifetime.
    rewrite float_gt_true by lra. reflexivity.
  - exact Hguard.
  - intros Hs Hz. apply Hguard; [exact Hs |].
    unfold lifetime. rewrite Hz. lra.
Qed.

Lemma main_sequence_lifetime_guard_witness :
  0 < initial_mass fuelless_star /\
  get_main_sequence_lifetime fuelless_star
  = Ok (Re (1e10 * Rpower 1 (-2.5) * (0 / 71))) /\
  update_expansion_factor fuelless_star = Ok fuelless_star.
Proof.
  assert (Hm : 0 < initial_mass fuelless_star) by (simpl; lra).
  destruct (main_sequence_lifetime_guard fuelless_star Hm)
    as (H1 & _ & _ & _ & H5).
  split; [exact Hm |]. split; [exact H1 |].
  apply H5; reflexivity.
Defined.

(** * Further properties of the class *)

(** ** The stages a star goes through *)

(** The cascade answers White Dwarf only when the previous stage already
    is White Dwarf: over the reals the test [current_h2 <= 0.1] of line 108
    holds whenever line 101 failed. *)
Lemma new_stage_of_white_dwarf (s : StarPhysics) (ft : R) :
  new_stage_of s ft = WhiteDwarf -> stage s = WhiteDwarf.
Proof.
  unfold new_stage_of, float_lt, float_gt, float_le.
  destruct (Rlt_dec (age s) ft); [discriminate |].
  destruct (Rgt_dec (current_h2 s) 0.1); [discriminate |].
  destruct (Rgt_dec (current_mass s) 1.44).
  - destruct (stage s); simpl; congruence.
  - destruct (Rle_dec (current_h2 s) 0.1); [| lra].
    destruct (stage s); simpl; congruence.
Qed.

(** The stage [update] stores is the cascade's answer on an object with
    the stage the call started with. *)
Lemma update_stage_from (self self' : StarPhysics) (delta_time : R) :
  update self delta_time = Ok self' ->
  exists mid,
    stage mid = stage self /\
    stage self' = new_stage_of mid (formation_time_of (initial_mass mid)).
Proof.
  unfold update. intros H.
  apply bind_Ok in H as (s2 & H2 & H).
  apply update_stellar_properties_stage in H.
  assert (E : stage s2 = stage self).
  { simpl in H2. destruct (Stage_eqb (stage self) MainSequence).
    - apply consume_h2_stage in H2. exact H2.
    - injection H2 as <-. reflexivity. }
  eexists. split; [| exact H].
  rewrite <- E. destruct (Stage_eqb (stage s2) RedGiant); reflexivity.
Qed.

Lemma update_all_not_white_dwarf (delta_times : list R) (star : StarPhysics) :
  Stage_eqb (stage star) WhiteDwarf = false ->
  in_stage (update_all star delta_times) WhiteDwarf = false.
Proof.
  revert star. induction delta_times as [| dt rest IH]; intros star Hs.
  - exact Hs.
  - simpl. destruct (update star dt) as [star' |] eqn:H; [| reflexivity].
    simpl. apply IH.
    destruct (Stage_eqb (stage star') WhiteDwarf) eqn:Hs'; [| reflexivity].
    apply Stage_eqb_eq in Hs'.
    apply update_stage_from in H as (mid & Hmid & H).
    rewrite H in Hs'. apply new_stage_of_white_dwarf in Hs'.
    rewrite Hmid in Hs'. apply Stage_eqb_eq in Hs'. congruence.
Qed.

(** X1.  No star ever is a White Dwarf: whatever the mass, the fuel and
    the elapsed times, the star the host holds is not in stage White
    Dwarf.  Lines 108-111 answer White Dwarf only after White Dwarf, and
    [__init__] starts from Protostar. *)
Theorem white_dwarf_unreachable (mass h2 : R) (delta_times : list R) :
  in_stage (simulate mass h2 delta_times) WhiteDwarf = false.
Proof.
  unfold simulate.
  destruct (__init__ mass h2) as [star |] eqn:H; [| reflexivity].
  simpl. apply update_all_not_white_dwarf.
  unfold __init__ in H. apply bind_Ok in H as (s & H & E).
  injection E as <-. simpl.
  apply update_stellar_properties_stage in H.
  destruct (Stage_eqb (stage s) WhiteDwarf) eqn:Hs; [| reflexivity].
  apply Stage_eqb_eq in Hs. rewrite H in Hs.
  apply new_stage_of_white_dwarf in Hs. discriminate.
Qed.

(** ** What holds of every reachable star *)

Lemma new_stage_of_three (s : StarPhysics) (ft : R) :
  stage s = Protostar \/ stage s = MainSequence \/ stage s = RedGiant ->
  new_stage_of s ft = Protostar \/ new_stage_of s ft = MainSequence
  \/ new_stage_of s ft = RedGiant.
Proof.
  intros Hs.
  destruct (new_stage_of s ft) eqn:E; auto.
  - apply new_stage_of_white_dwarf in E.
    destruct Hs as [Hs | [Hs | Hs]]; congruence.
  - apply new_stage_of_supernova in E.
    destruct Hs as [Hs | [Hs | Hs]]; congruence.
Qed.

Lemma formation_time_of_positive (m : R) : 0 < m -> 0 < formation_time_of m.
Proof.
  intros Hm. unfold formation_time_of, Rdiv. rewrite Rmult_1_l.
  assert (H : 0 < / m) by (apply Rinv_0_lt_compat; exact Hm).
  lra.
Qed.

Lemma lifetime_of_positive (m h2 : R) : 0 < h2 -> 0 < lifetime_of m h2.
Proof.
  intros Hh. unfold lifetime_of.
  assert (0 < Rpower m (-2.5)) by apply Rpower_pos.
  apply Rmult_lt_0_compat; [| lra].
  apply Rmult_lt_0_compat; lra.
Qed.

Lemma target_expansion_cases (s : StarPhysics) :
  target_expansion s = 100 \/ target_expansion s = 50.
Proof. unfold target_expansion. destruct (float_gt _ _); auto. Qed.

(** The expansion factor a recomputation stores when the new stage is Red
    Giant: the burst of line 123 when the star comes from the Main
    Sequence, then the ramp of lines 84-85. *)
Lemma update_stellar_properties_red_giant (self self' : StarPhysics) :
  update_stellar_properties self = Ok self' ->
  stage self' = RedGiant ->
  expansion_factor self'
  = Rmin (target_expansion self)
      ((if Stage_eqb (stage self) MainSequence
        then expansion_factor self * 2.0 else expansion_factor self) + 0.1).
Proof.
  intros H Hs.
  pose proof (update_stellar_properties_stage _ _ H) as Hn.
  rewrite Hs in Hn.
  apply update_stellar_properties_inv in H as (l & p & b & _ & _ & _ & _ & H).
  unfold update_expansion_factor, before_expansion_update in H.
  cbv zeta in H. simpl stage in H. rewrite <- Hn in H. cbv iota in H.
  injection H as <-. simpl. unfold target_expansion, handle_stage_transition.
  destruct (stage self); reflexivity.
Qed.

(** A recomputation stores the expansion factor 2 - min(1, age / formation
    time) in the Protostar stage. *)
Lemma settled_protostar_bounds (s : StarPhysics) :
  settled s -> 0 <= age s -> stage s = Protostar ->
  1 <= expansion_factor s <= 2.
Proof.
  intros (Hm & _ & _ & _ & _ & Hp & _) Ha Hs.
  rewrite (Hp Hs).
  pose proof (formation_time_of_positive _ Hm) as Hft.
  assert (0 <= age s / formation_time_of (initial_mass s)).
  { apply Rmult_le_pos; [exact Ha |].
    apply Rlt_le, Rinv_0_lt_compat. exact Hft. }
  unfold Rmin. destruct (Rle_dec _ _); lra.
Qed.

Lemma settled_main_sequence_bounds (s : StarPhysics) :
  settled s -> 0 <= age s -> current_h2 s <= h2_percentage s ->
  stage s = MainSequence ->
  1 <= expansion_factor s <= 1.5.
Proof.
  intros Hset Ha Hh Hs.
  destruct (settled_main_sequence s Hset Hs) as (Hf & _).
  destruct Hset as (Hm & _ & _ & _ & _ & _ & Hms).
  assert (Hl : 0 < lifetime_of (initial_mass s) (h2_percentage s))
    by (apply lifetime_of_positive; lra).
  rewrite (Hms Hs Hl).
  assert (0 <= age s / lifetime_of (initial_mass s) (h2_percentage s)).
  { apply Rmult_le_pos; [exact Ha |].
    apply Rlt_le, Rinv_0_lt_compat. exact Hl. }
  unfold Rmin. destruct (Rle_dec _ _); lra.
Qed.

Lemma aged_initial_radius (self : StarPhysics) (delta_time : R) :
  initial_radius (aged self delta_time) = initial_radius self.
Proof. destruct self as [? ? ? ? ? ? ? ? ? st ?]. destruct st; reflexivity. Qed.

Lemma update_stellar_properties_orderly (self self' : StarPhysics) :
  update_stellar_properties self = Ok self' -> settled self' ->
  0 <= age self -> current_h2 self <= h2_percentage self ->
  (stage self = Protostar \/ stage self = MainSequence
   \/ stage self = RedGiant) ->
  1 <= expansion_factor self ->
  orderly self'.
Proof.
  intros H Hset Ha Hh Hs He.
  destruct (update_stellar_properties_frame _ _ H)
    as (F1 & F2 & F3 & F4 & F5 & F6).
  pose proof (update_stellar_properties_stage _ _ H) as Hst.
  assert (Ha' : 0 <= age self') by lra.
  assert (Hh' : current_h2 self' <= h2_percentage self') by lra.
  assert (Hs' : stage self' = Protostar \/ stage self' = MainSequence
                \/ stage self' = RedGiant).
  { rewrite Hst. apply new_stage_of_three. exact Hs. }
  split; [exact Ha' |]. split; [exact Hh' |]. split; [exact Hs' |].
  assert (Ht : target_expansion self' = target_expansion self).
  { unfold target_expansion. rewrite F1. reflexivity. }
  destruct (target_expansion_cases self') as [T | T].
  - destruct Hs' as [E | [E | E]].
    + pose proof (settled_protostar_bounds self' Hset Ha' E). lra.
    + pose proof (settled_main_sequence_bounds self' Hset Ha' Hh' E). lra.
    + rewrite (update_stellar_properties_red_giant _ _ H E).
      rewrite <- Ht, T.
      destruct (Stage_eqb (stage self) MainSequence);
        unfold Rmin; destruct (Rle_dec _ _); lra.
  - destruct Hs' as [E | [E | E]].
    + pose proof (settled_protostar_bounds self' Hset Ha' E). lra.
    + pose proof (settled_main_sequence_bounds self' Hset Ha' Hh' E). lra.
    + rewrite (update_stellar_properties_red_giant _ _ H E).
      rewrite <- Ht, T.
      destruct (Stage_eqb (stage self) MainSequence);
        unfold Rmin; destruct (Rle_dec _ _); lra.
Qed.

Lemma h2_consumption_rate_positive (s : StarPhysics) :
  0 < h2_consumption_rate s.
Proof.
  unfold h2_consumption_rate.
  assert (0 < Rpower (current_mass s) 3.5) by apply Rpower_pos. lra.
Qed.

Lemma init_orderly (mass h2 : R) (star : StarPhysics) :
  0 < mass -> __init__ mass h2 = Ok star -> orderly star.
Proof.
  intros Hm H.
  destruct (init_settled mass h2 Hm) as (s & Hs & Hset & _).
  rewrite H in Hs. injection Hs as <-.
  unfold __init__ in H. apply bind_Ok in H as (s1 & H & E).
  injection E as <-.
  assert (O : orderly s1).
  { apply (update_stellar_properties_orderly _ _ H); simpl; try lra.
    - exact Hset.
    - left. reflexivity. }
  exact O.
Qed.

Lemma update_orderly (s s' : StarPhysics) (delta_time : R) :
  settled s -> orderly s -> 0 <= delta_time ->
  update s delta_time = Ok s' -> orderly s'.
Proof.
  intros Hset (Ha & Hh & Hs & He) Hdt H.
  destruct (update_settled s delta_time Hset) as (s1 & H1 & Hset1 & _).
  rewrite H in H1. injection H1 as <-.
  rewrite update_aged in H.
  2:{ intros E. destruct (settled_main_sequence s Hset E) as (_ & ->).
      apply Hset. }
  apply (update_stellar_properties_orderly _ _ H Hset1).
  - rewrite aged_age. lra.
  - rewrite aged_current_h2, aged_h2_percentage.
    destruct (Stage_eqb (stage s) MainSequence) eqn:E; [| exact Hh].
    apply Stage_eqb_eq in E.
    destruct (settled_main_sequence s Hset E) as (Hf & _).
    pose proof (h2_consumption_rate_positive s) as Hr.
    unfold h2_consumption_rate in Hr.
    assert (0 <= 0.1 * Rpower (current_mass s) 3.5 / 1e10 * delta_time)
      by (apply Rmult_le_pos; lra).
    unfold Rmax. destruct (Rle_dec _ _); lra.
  - rewrite aged_stage. exact Hs.
  - rewrite aged_expansion_factor. lra.
Qed.

Lemma reachable_orderly (star : StarPhysics) : reachable star -> orderly star.
Proof.
  induction 1 as [mass h2 star Hm H | star star' dt Hr IH Hdt H].
  - exact (init_orderly mass h2 star Hm H).
  - exact (update_orderly star star' dt (reachable_settled _ Hr) IH Hdt H).
Qed.

(** One call of [update] on a reachable star, with all that is known of
    the star it returns. *)
Lemma update_reachable (s : StarPhysics) (delta_time : R) :
  reachable s -> 0 <= delta_time ->
  exists s',
    update s delta_time = Ok s' /\
    update_stellar_properties (aged s delta_time) = Ok s' /\
    reachable s' /\
    initial_mass s' = initial_mass s /\
    h2_percentage s' = h2_percentage s /\
    age s' = age s + delta_time /\
    current_mass s' = current_mass (aged s delta_time) /\
    current_h2 s' = current_h2 (aged s delta_time).
Proof.
  intros Hr Hdt.
  pose proof (reachable_settled _ Hr) as Hset.
  destruct (update_settled s delta_time Hset)
    as (s' & H & _ & F1 & F2 & F3 & F4 & F5 & _).
  exists s'. split; [exact H |].
  split.
  { rewrite <- update_aged; [exact H |].
    intros E. destruct (settled_main_sequence s Hset E) as (_ & ->).
    apply Hset. }
  split; [exact (reach_update s s' delta_time Hr Hdt H) |].
  repeat split; assumption.
Qed.

Lemma reachable_stage (s : StarPhysics) :
  reachable s ->
  stage s
  = if float_lt (age s) (formation_time_of (initial_mass s)) then Protostar
    else if float_gt (current_h2 s) 0.1 then MainSequence
    else RedGiant.
Proof.
  intros Hr.
  destruct (reachable_orderly _ Hr) as (_ & _ & Hs & _).
  destruct (reachable_settled _ Hr) as (_ & _ & Hc & _).
  rewrite Hc at 1. unfold new_stage_of.
  destruct (float_lt _ _); [reflexivity |].
  destruct (float_gt (current_h2 s) 0.1) eqn:Hh; [reflexivity |].
  unfold float_gt in Hh. destruct (Rgt_dec (current_h2 s) 0.1); [discriminate |].
  rewrite float_le_true by lra.
  destruct (float_gt (current_mass s) 1.44);
    destruct Hs as [E | [E | E]]; rewrite E; reflexivity.
Qed.

(** A reachable Red Giant stays a Red Giant. *)
Lemma red_giant_stays (s s' : StarPhysics) (delta_time : R) :
  reachable s -> stage s = RedGiant -> 0 <= delta_time ->
  update s delta_time = Ok s' -> stage s' = RedGiant.
Proof.
  intros Hr E Hdt H.
  destruct (update_reachable s delta_time Hr Hdt)
    as (s1 & H1 & _ & Hr' & F1 & _ & F3 & _ & F5).
  rewrite H in H1. injection H1 as <-.
  pose proof (reachable_stage s' Hr') as Hs'.
  rewrite F1, F3 in Hs'.
  destruct (reachable_settled _ Hr) as (_ & _ & Hc & _).
  rewrite E in Hc. symmetry in Hc.
  apply new_stage_of_red_giant in Hc as (Hf & Hage).
  rewrite float_lt_false in Hs' by lra.
  rewrite F5, aged_current_h2, E in Hs'. simpl in Hs'.
  rewrite float_gt_false in Hs' by lra.
  exact Hs'.
Qed.

(** X2.  The stage of a reachable star is a function of its age and its
    fuel alone: Protostar below the formation time, else Main Sequence
    with fuel above 0.1, else Red Giant.  The previous stage and the mass
    have no say. *)
Theorem stage_of_reachable (s : StarPhysics) :
  reachable s ->
  stage s
  = if float_lt (age s) (50000 * (1 / initial_mass s)) then Protostar
    else if float_gt (current_h2 s) 0.1 then MainSequence
    else RedGiant.
Proof.
  intros Hr. pose proof (reachable_stage s Hr) as H.
  unfold formation_time_of in H. exact H.
Qed.

Lemma stage_of_reachable_witness :
  reachable high_mass_red_giant /\
  stage high_mass_red_giant
  = if float_lt 25000 (50000 * (1 / 2)) then Protostar
    else if float_gt 0 0.1 then MainSequence
    else RedGiant.
Proof.
  split; [exact reachable_red_giant |].
  exact (stage_of_reachable high_mass_red_giant reachable_red_giant).
Defined.

(** X3.  The stages of a reachable star never go backwards: whenever a
    call of [update] with a non-negative elapsed time returns, the stage of
    the star it returns is the same or a later one, and a Red Giant stays a
    Red Giant. *)
Theorem stages_never_go_back (s s' : StarPhysics) (delta_time : R) :
  reachable s -> 0 <= delta_time -> update s delta_time = Ok s' ->
  (stage_rank (stage s) <= stage_rank (stage s'))%nat /\
  (stage s = RedGiant -> stage s' = RedGiant).
Proof.
  intros Hr Hdt H.
  pose proof (reach_update s s' delta_time Hr Hdt H) as Hr'.
  pose proof H as H0.
  apply update_recomputes in H as (mid & Hu & _ & Hage & Him & _).
  destruct (update_stellar_properties_frame _ _ Hu)
    as (F1 & _ & _ & _ & F5 & _).
  pose proof (reachable_stage s' Hr') as Hs'.
  rewrite F1, F5, Him, Hage in Hs'.
  destruct (reachable_orderly _ Hr) as (_ & _ & Hs & _).
  destruct (reachable_settled _ Hr) as (_ & _ & Hc & _).
  destruct Hs as [E | [E | E]].
  - rewrite E. split; [apply Nat.le_0_l | discriminate].
  - rewrite E in Hc. symmetry in Hc.
    apply new_stage_of_main_sequence in Hc as (_ & Ha).
    rewrite float_lt_false in Hs' by lra.
    split; [| rewrite E; discriminate].
    rewrite E, Hs'. destruct (float_gt _ _); simpl; repeat constructor.
  - pose proof (red_giant_stays s s' delta_time Hr E Hdt H0) as Hrg.
    split; [rewrite E, Hrg; constructor | intros _; exact Hrg].
Qed.

Lemma stages_never_go_back_witness :
  (stage_rank (stage sun_protostar)
   <= stage_rank (stage sun_main_sequence))%nat /\
  (stage sun_protostar = RedGiant -> stage sun_main_sequence = RedGiant).
Proof.
  apply (stages_never_go_back sun_protostar sun_main_sequence 50000);
    [exact reachable_sun | lra | exact update_sun_formed].
Defined.

(** ** Fuel, age and the construction parameters *)

(** X4.  On a reachable star a call of [update] with a non-negative
    elapsed time never increases the fuel; in the Main Sequence stage the
    fuel becomes [max(0, fuel - rate * delta_time)] with the rate
    [0.1 * mass ** 3.5 / 1e10], which is not negative; in every other
    stage the fuel is left as it is. *)
Theorem fuel_burns_in_main_sequence_only
    (s : StarPhysics) (delta_time : R) :
  reachable s -> 0 <= delta_time ->
  exists s',
    update s delta_time = Ok s' /\
    current_h2 s' <= current_h2 s /\
    (stage s = MainSequence ->
     current_h2 s'
     = Rmax 0 (current_h2 s - h2_consumption_rate s * delta_time) /\
     0 <= current_h2 s') /\
    (stage s <> MainSequence -> current_h2 s' = current_h2 s).
Proof.
  intros Hr Hdt.
  destruct (update_reachable s delta_time Hr Hdt)
    as (s' & H & _ & _ & _ & _ & _ & _ & F5).
  rewrite aged_current_h2 in F5.
  fold (h2_consumption_rate s) in F5.
  exists s'. split; [exact H |].
  pose proof (h2_consumption_rate_positive s) as Hrate.
  assert (Hprod : 0 <= h2_consumption_rate s * delta_time)
    by (apply Rmult_le_pos; lra).
  destruct (Stage_eqb (stage s) MainSequence) eqn:E.
  - apply Stage_eqb_eq in E.
    destruct (settled_main_sequence s (reachable_settled _ Hr) E) as (Hf & _).
    rewrite F5. split; [| split].
    + unfold Rmax. destruct (Rle_dec _ _); lra.
    + intros _. split; [reflexivity | apply Rmax_l].
    + intros N. contradiction.
  - rewrite F5. split; [lra |]. split.
    + intros N. apply Stage_eqb_eq in N. congruence.
    + intros _. reflexivity.
Qed.

Lemma fuel_burns_in_main_sequence_only_witness :
  exists s',
    update sun_main_sequence 1000 = Ok s' /\
    current_h2 s' <= 71 /\
    (MainSequence = MainSequence ->
     current_h2 s'
     = Rmax 0 (71 - h2_consumption_rate sun_main_sequence * 1000) /\
     0 <= current_h2 s') /\
    (MainSequence <> MainSequence -> current_h2 s' = 71).
Proof.
  apply (fuel_burns_in_main_sequence_only sun_main_sequence 1000);
    [exact reachable_sun_main_sequence | lra].
Defined.

Lemma update_all_settled (delta_times : list R) (s : StarPhysics) :
  settled s ->
  exists s',
    update_all s delta_times = Ok s' /\ settled s' /\
    initial_mass s' = initial_mass s /\
    h2_percentage s' = h2_percentage s /\
    age s' = age s + fold_right Rplus 0 delta_times.
Proof.
  revert s. induction delta_times as [| dt rest IH]; intros s Hset.
  - exists s. simpl. split; [reflexivity |]. split; [exact Hset |].
    split; [reflexivity |]. split; [reflexivity | lra].
  - destruct (update_settled s dt Hset)
      as (s1 & H & Hset1 & F1 & _ & F3 & _ & F5 & _).
    destruct (IH s1 Hset1) as (s' & H' & Hset' & G1 & G3 & G5).
    exists s'. simpl. rewrite H. simpl.
    split; [exact H' |]. split; [exact Hset' |].
    repeat split; try congruence. lra.
Qed.

(** X5.  With a positive initial mass neither [__init__] nor any sequence
    of [update] calls raises [ZeroDivisionError] or [TypeError], whatever
    the elapsed times; and when the calls return, the star still has the
    mass and the fuel it was built with as [initial_mass] and
    [h2_percentage], and its age is the sum of the elapsed times. *)
Theorem positive_mass_raises_no_builtin_error
    (mass h2 : R) (delta_times : list R) :
  0 < mass ->
  simulate mass h2 delta_times <> Raise ZeroDivisionError /\
  simulate mass h2 delta_times <> Raise TypeError /\
  (forall s,
     simulate mass h2 delta_times = Ok s ->
     initial_mass s = mass /\ h2_percentage s = h2 /\
     age s = fold_right Rplus 0 delta_times).
Proof.
  intros Hm. unfold simulate.
  destruct (init_settled mass h2 Hm)
    as (s0 & H & Hset & F1 & _ & F3 & _ & F5).
  rewrite H. simpl.
  destruct (update_all_settled delta_times s0 Hset)
    as (s & Hs & _ & G1 & G3 & G5).
  rewrite Hs.
  split; [discriminate |]. split; [discriminate |].
  intros s1 E. injection E as <-.
  repeat split; try congruence. lra.
Qed.

Lemma positive_mass_raises_no_builtin_error_witness :
  simulate 2 0 [25000; 2e11; -3] <> Raise ZeroDivisionError /\
  simulate 2 0 [25000; 2e11; -3] <> Raise TypeError /\
  (forall s,
     simulate 2 0 [25000; 2e11; -3] = Ok s ->
     initial_mass s = 2 /\ h2_percentage s = 0 /\
     age s = fold_right Rplus 0 [25000; 2e11; -3]).
Proof.
  apply (positive_mass_raises_no_builtin_error 2 0 [25000; 2e11; -3]). lra.
Defined.

(** ** The expansion factor *)

(** X6.  The expansion factor of a reachable star lies between 1 and the
    Red Giant target (100 for an initial mass above 1.44, else 50); it is
    at most 2 in the Protostar stage and at most 1.5 in the Main Sequence
    stage. *)
Theorem expansion_factor_bounds (s : StarPhysics) :
  reachable s ->
  1 <= expansion_factor s <= target_expansion s /\
  (stage s = Protostar -> expansion_factor s <= 2) /\
  (stage s = MainSequence -> expansion_factor s <= 1.5).
Proof.
  intros Hr.
  pose proof (reachable_settled _ Hr) as Hset.
  destruct (reachable_orderly _ Hr) as (Ha & Hh & _ & He).
  split; [exact He |]. split.
  - intros E. apply (settled_protostar_bounds s Hset Ha E).
  - intros E. apply (settled_main_sequence_bounds s Hset Ha Hh E).
Qed.

Lemma expansion_factor_bounds_witness :
  1 <= expansion_factor sun_main_sequence
    <= target_expansion sun_main_sequence /\
  (MainSequence = Protostar -> expansion_factor sun_main_sequence <= 2) /\
  (MainSequence = MainSequence -> expansion_factor sun_main_sequence <= 1.5).
Proof.
  exact (expansion_factor_bounds sun_main_sequence
           reachable_sun_main_sequence).
Defined.

Lemma update_red_giant_step (s : StarPhysics) (delta_time : R) :
  reachable s -> stage s = RedGiant -> 0 <= delta_time ->
  exists s',
    update s delta_time = Ok s' /\ reachable s' /\ stage s' = RedGiant /\
    target_expansion s' = target_expansion s /\
    expansion_factor s'
    = Rmin (target_expansion s) (expansion_factor s + 0.1).
Proof.
  intros Hr Hs Hdt.
  destruct (update_reachable s delta_time Hr Hdt)
    as (s' & H & Hu & Hr' & F1 & _).
  pose proof (red_giant_stays s s' delta_time Hr Hs Hdt H) as Hrg.
  exists s'. split; [exact H |]. split; [exact Hr' |]. split; [exact Hrg |].
  split; [unfold target_expansion; rewrite F1; reflexivity |].
  rewrite (update_stellar_properties_red_giant _ _ Hu Hrg).
  rewrite aged_stage, aged_expansion_factor, Hs. simpl.
  unfold target_expansion. rewrite aged_initial_mass. reflexivity.
Qed.

Lemma Rmin_ramp (t a c : R) :
  0 <= c -> Rmin t (Rmin t a + c) = Rmin t (a + c).
Proof. intros Hc. unfold Rmin. repeat destruct (Rle_dec _ _); lra. Qed.

(** X7.  The Red Giant ramp counts calls, not years: after [n] calls of
    [update] on a reachable Red Giant, whatever their non-negative elapsed
    times, the star is a Red Giant whose expansion factor is
    [min(target, e + 0.1 * n)], where [e] is the expansion factor before
    the calls. *)
Theorem red_giant_ramp_counts_calls
    (s : StarPhysics) (delta_times : list R) :
  reachable s -> stage s = RedGiant ->
  Forall (fun delta_time => 0 <= delta_time) delta_times ->
  exists s',
    update_all s delta_times = Ok s' /\ stage s' = RedGiant /\
    expansion_factor s'
    = Rmin (target_expansion s)
        (expansion_factor s + 0.1 * INR (length delta_times)).
Proof.
  intros Hr Hs Hd. revert s Hr Hs.
  induction Hd as [| dt rest Hdt _ IH]; intros s Hr Hs.
  - exists s. split; [reflexivity |]. split; [exact Hs |].
    simpl. rewrite Rmult_0_r, Rplus_0_r.
    destruct (reachable_orderly _ Hr) as (_ & _ & _ & He).
    symmetry. apply Rmin_right. lra.
  - destruct (update_red_giant_step s dt Hr Hs Hdt)
      as (s1 & H & Hr1 & Hs1 & Ht & He).
    destruct (IH s1 Hr1 Hs1) as (s' & H' & Hs' & He').
    exists s'. simpl update_all. rewrite H. simpl bind.
    split; [exact H' |]. split; [exact Hs' |].
    rewrite He', Ht, He.
    change (length (dt :: rest)) with (S (length rest)). rewrite S_INR.
    rewrite Rmin_ramp by (apply Rmult_le_pos; [lra | apply pos_INR]).
    f_equal. lra.
Qed.

Lemma red_giant_ramp_counts_calls_witness :
  exists s',
    update_all high_mass_red_giant [1; 1000000; 0] = Ok s' /\
    stage s' = RedGiant /\
    expansion_factor s'
    = Rmin (target_expansion high_mass_red_giant) (2.1 + 0.1 * INR 3).
Proof.
  apply (red_giant_ramp_counts_calls high_mass_red_giant [1; 1000000; 0]).
  - exact reachable_red_giant.
  - reflexivity.
  - repeat constructor; lra.
Defined.

(** X8.  A reachable Main Sequence star leaves the Main Sequence in the
    call of [update] that brings its fuel to 0.1 or below, and not before:
    with more fuel left it stays in the Main Sequence; otherwise it becomes
    a Red Giant, and its expansion factor [e] becomes [2 * e + 0.1], the
    burst of line 123 followed by one step of the ramp. *)
Theorem main_sequence_ends_with_the_fuel
    (s : StarPhysics) (delta_time : R) :
  reachable s -> stage s = MainSequence -> 0 <= delta_time ->
  exists s',
    update s delta_time = Ok s' /\
    (0.1 < current_h2 s - h2_consumption_rate s * delta_time ->
     stage s' = MainSequence) /\
    (current_h2 s - h2_consumption_rate s * delta_time <= 0.1 ->
     stage s' = RedGiant /\
     expansion_factor s' = expansion_factor s * 2.0 + 0.1).
Proof.
  intros Hr Hs Hdt.
  destruct (update_reachable s delta_time Hr Hdt)
    as (s' & H & Hu & Hr' & F1 & _ & F3 & _ & F5).
  exists s'. split; [exact H |].
  pose proof (reachable_stage s' Hr') as Hs'.
  rewrite F1, F3 in Hs'.
  pose proof (reachable_settled _ Hr) as Hset.
  pose proof Hset as (_ & _ & Hc & _).
  rewrite Hs in Hc. symmetry in Hc.
  apply new_stage_of_main_sequence in Hc as (_ & Hage).
  rewrite float_lt_false in Hs' by lra.
  rewrite F5, aged_current_h2, Hs in Hs'. simpl in Hs'.
  fold (h2_consumption_rate s) in Hs'.
  split.
  - intros Hf. rewrite Hs'. rewrite float_gt_true; [reflexivity |].
    unfold Rmax. destruct (Rle_dec _ _); lra.
  - intros Hf.
    assert (Hrg : stage s' = RedGiant).
    { rewrite Hs'. rewrite float_gt_false; [reflexivity |].
      unfold Rmax. destruct (Rle_dec _ _); lra. }
    split; [exact Hrg |].
    rewrite (update_stellar_properties_red_giant _ _ Hu Hrg).
    rewrite aged_stage, aged_expansion_factor, Hs. simpl.
    destruct (reachable_orderly _ Hr) as (Ha & Hh & _ & He1 & _).
    pose proof (settled_main_sequence_bounds s Hset Ha Hh Hs) as He2.
    destruct (target_expansion_cases (aged s delta_time)) as [-> | ->];
      apply Rmin_right; lra.
Qed.

Lemma main_sequence_ends_with_the_fuel_witness :
  exists s',
    update sun_main_sequence 1000 = Ok s' /\
    (0.1 < 71 - h2_consumption_rate sun_main_sequence * 1000 ->
     stage s' = MainSequence) /\
    (71 - h2_consumption_rate sun_main_sequence * 1000 <= 0.1 ->
     stage s' = RedGiant /\
     expansion_factor s' = 1.0000025 * 2.0 + 0.1).
Proof.
  apply (main_sequence_ends_with_the_fuel sun_main_sequence 1000);
    [exact reachable_sun_main_sequence | reflexivity | lra].
Defined.

(** ** Luminosity, temperature and radius *)

Lemma mass_luminosity_low (m : R) :
  0 < m -> m < 0.43 -> mass_luminosity m = Ok (Re (0.23 * Rpower m 2.3)).
Proof.
  intros H0 H1. unfold mass_luminosity.
  rewrite float_lt_true by lra. rewrite float_pow_pos by lra. reflexivity.
Qed.

Lemma mass_luminosity_middle (m : R) :
  0.43 <= m -> m < 2 -> mass_luminosity m = Ok (Re (m ^ 4)).
Proof.
  intros H0 H1. unfold mass_luminosity.
  rewrite float_lt_false by lra. rewrite float_lt_true by lra. reflexivity.
Qed.

Lemma mass_luminosity_high (m : R) :
  2 <= m -> mass_luminosity m = Ok (Re (1.4 * Rpower m 3.5)).
Proof.
  intros H0. unfold mass_luminosity.
  rewrite float_lt_false by lra. rewrite float_lt_false by lra.
  rewrite float_pow_pos by lra. reflexivity.
Qed.

Lemma calculate_base_radius_positive (s : StarPhysics) :
  0 < current_mass s ->
  exists b, calculate_base_radius s = Ok (Re b) /\ 0 < b.
Proof.
  intros Hm. unfold calculate_base_radius.
  destruct (float_lt _ _); rewrite float_pow_pos by exact Hm;
    eexists; (split; [reflexivity | apply Rpower_pos]).
Qed.

(** The radius of a reachable star is its base radius times an expansion
    factor that is at least 1. *)
Lemma reachable_radius (s : StarPhysics) :
  reachable s ->
  exists b e,
    calculate_base_radius s = Ok b /\ radius s = num_mul_float b e /\ 1 <= e.
Proof.
  intros Hr. inversion Hr as [mass h2 s0 Hm H | s0 s1 dt Hr0 Hdt H]; subst.
  - unfold __init__ in H. apply bind_Ok in H as (s1 & H & E).
    injection E as <-.
    destruct (radius_uses_previous_expansion_factor _ _ H) as (b & Hb & Hrad).
    exists b, 1.0. split; [exact Hb |]. split; [exact Hrad | lra].
  - destruct (update_reachable s0 dt Hr0 Hdt) as (s2 & H2 & Hu & _).
    rewrite H in H2. injection H2 as <-.
    destruct (radius_uses_previous_expansion_factor _ _ Hu) as (b & Hb & Hrad).
    rewrite aged_expansion_factor in Hrad.
    exists b, (expansion_factor s0). split; [exact Hb |].
    split; [exact Hrad |].
    apply (reachable_orderly _ Hr0).
Qed.

(** X9.  A reachable star whose mass lies between 1e-30 and 1e30, where
    no power leaves the range of a double, has a positive real luminosity,
    temperature and radius; [get_color] returns on it, and [get_emission]
    returns a finite number that is at most 1. *)
Theorem moderate_mass_gives_positive_physics (s : StarPhysics) :
  reachable s -> 1e-30 <= current_mass s <= 1e30 ->
  exists l t r,
    luminosity s = Re l /\ temperature s = Re t /\ radius s = Re r /\
    0 < l /\ 0 < t /\ 0 < r /\
    (exists c, get_color s = Ok c) /\
    (exists e, get_emission s = Ok (Finite e) /\ e <= 1).
Proof.
  intros Hr Hrange.
  assert (Hm : 0 < current_mass s) by lra.
  destruct (reachable_settled _ Hr) as (_ & _ & _ & Hl & (p & Hp & Ht) & _).
  destruct (mass_luminosity_total (current_mass s)) as (l0 & Hl0 & Hpos).
  destruct (Hpos Hm) as (l & -> & Hlpos).
  assert (El : luminosity s = Re l) by congruence.
  rewrite El in Hp. simpl in Hp. rewrite float_pow_pos in Hp by exact Hlpos.
  injection Hp as <-. simpl in Ht.
  destruct (reachable_radius s Hr) as (b & e & Hb & Hrad & He).
  destruct (calculate_base_radius_positive s Hm) as (b0 & Hb0 & Hbpos).
  assert (b = Re b0) by congruence. subst b. simpl in Hrad.
  assert (Htpos : 0 < 5778 * Rpower l 0.25).
  { assert (0 < Rpower l 0.25) by apply Rpower_pos. lra. }
  exists l, (5778 * Rpower l 0.25), (b0 * e).
  split; [exact El |]. split; [exact Ht |]. split; [exact Hrad |].
  split; [exact Hlpos |]. split; [exact Htpos |].
  split; [apply Rmult_lt_0_compat; lra |].
  split.
  - unfold get_color. rewrite Ht.
    repeat (destruct (float_lt _ _); [eexists; reflexivity |]).
    eexists; reflexivity.
  - eexists. split; [apply (get_emission_positive s l El Hlpos) |].
    unfold Rmin. destruct (Rle_dec _ _); lra.
Qed.

Lemma moderate_mass_gives_positive_physics_witness :
  exists l t r,
    luminosity sun_main_sequence = Re l /\
    temperature sun_main_sequence = Re t /\
    radius sun_main_sequence = Re r /\
    0 < l /\ 0 < t /\ 0 < r /\
    (exists c, get_color sun_main_sequence = Ok c) /\
    (exists e, get_emission sun_main_sequence = Ok (Finite e) /\ e <= 1).
Proof.
  apply (moderate_mass_gives_positive_physics sun_main_sequence).
  - exact reachable_sun_main_sequence.
  - simpl. lra.
Defined.

(** X10.  The temperature of a reachable star with the real luminosity
    [l] is [5778 * l ** 0.25], and it increases strictly with the
    luminosity. *)
Theorem temperature_increases_with_luminosity
    (a b : StarPhysics) (la lb : R) :
  reachable a -> reachable b ->
  luminosity a = Re la -> luminosity b = Re lb -> 0 < la -> la < lb ->
  temperature a = Re (5778 * Rpower la 0.25) /\
  temperature b = Re (5778 * Rpower lb 0.25) /\
  5778 * Rpower la 0.25 < 5778 * Rpower lb 0.25.
Proof.
  intros Ha Hb Ea Eb H0 Hlt.
  assert (T : forall s l, reachable s -> luminosity s = Re l -> 0 < l ->
                          temperature s = Re (5778 * Rpower l 0.25)).
  { intros s l Hr E Hl.
    destruct (reachable_settled _ Hr) as (_ & _ & _ & _ & (p & Hp & Ht) & _).
    rewrite E in Hp. simpl in Hp. rewrite float_pow_pos in Hp by exact Hl.
    injection Hp as <-. exact Ht. }
  split; [apply T; assumption |].
  split; [apply T; [assumption | assumption | lra] |].
  assert (Rpower la 0.25 < Rpower lb 0.25)
    by (apply Rlt_Rpower_l; lra).
  lra.
Qed.

Lemma temperature_increases_with_luminosity_witness :
  temperature sun_protostar = Re (5778 * Rpower 1 0.25) /\
  temperature high_mass_protostar
  = Re (5778 * Rpower (1.4 * Rpower 2 3.5) 0.25) /\
  5778 * Rpower 1 0.25 < 5778 * Rpower (1.4 * Rpower 2 3.5) 0.25.
Proof.
  apply (temperature_increases_with_luminosity
           sun_protostar high_mass_protostar 1 (1.4 * Rpower 2 3.5)).
  - exact reachable_sun.
  - apply (reach_init 2 0); [lra | exact init_high_mass].
  - reflexivity.
  - reflexivity.
  - lra.
  - assert (H : Rpower 2 0 < Rpower 2 3.5) by (apply Rpower_lt; lra).
    rewrite Rpower_O in H by lra. lra.
Defined.

(** X11.  Within each of its three mass regimes (below 0.43, from 0.43 to
    2, from 2 on) the mass-luminosity relation increases strictly with the
    mass. *)
Theorem luminosity_increases_within_a_regime (m1 m2 : R) :
  0 < m1 -> m1 < m2 ->
  m2 < 0.43 \/ (0.43 <= m1 /\ m2 < 2) \/ 2 <= m1 ->
  exists l1 l2,
    mass_luminosity m1 = Ok (Re l1) /\ mass_luminosity m2 = Ok (Re l2) /\
    l1 < l2.
Proof.
  intros H0 Hlt [Hlow | [(Hm1 & Hm2) | Hhigh]].
  - rewrite !mass_luminosity_low by lra.
    eexists. eexists. split; [reflexivity |]. split; [reflexivity |].
    assert (Rpower m1 2.3 < Rpower m2 2.3) by (apply Rlt_Rpower_l; lra).
    lra.
  - rewrite !mass_luminosity_middle by lra.
    eexists. eexists. split; [reflexivity |]. split; [reflexivity |].
    assert (H : m1 * m1 < m2 * m2) by nra.
    replace (m1 ^ 4) with ((m1 * m1) * (m1 * m1)) by ring.
    replace (m2 ^ 4) with ((m2 * m2) * (m2 * m2)) by ring.
    nra.
  - rewrite !mass_luminosity_high by lra.
    eexists. eexists. split; [reflexivity |]. split; [reflexivity |].
    assert (Rpower m1 3.5 < Rpower m2 3.5) by (apply Rlt_Rpower_l; lra).
    lra.
Qed.

Lemma luminosity_increases_within_a_regime_witness :
  exists l1 l2,
    mass_luminosity 1 = Ok (Re l1) /\ mass_luminosity 1.5 = Ok (Re l2) /\
    l1 < l2.
Proof.
  apply (luminosity_increases_within_a_regime 1 1.5); [lra | lra |].
  right. left. lra.
Defined.

Lemma Rpower_2_3_5_bound : Rpower 2 3.5 < 11.32.
Proof.
  replace 3.5 with (INR 3 + / 2) by (simpl; lra).
  rewrite Rpower_plus, Rpower_pow, Rpower_sqrt by lra.
  assert (H : sqrt 2 < 1.415).
  { rewrite <- (sqrt_square 1.415) by lra. apply sqrt_lt_1; lra. }
  simpl. lra.
Qed.

(** X12.  At the regime boundary 2 the luminosity drops: every star with a
    mass from 1.998 up to, but not including, 2 is more luminous than the
    star of mass 2. *)
Theorem luminosity_drops_at_two (m : R) :
  1.998 <= m -> m < 2 ->
  exists l l2,
    mass_luminosity m = Ok (Re l) /\ mass_luminosity 2 = Ok (Re l2) /\
    l2 < l.
Proof.
  intros H0 H1.
  rewrite mass_luminosity_middle by lra.
  rewrite mass_luminosity_high by lra.
  eexists. eexists. split; [reflexivity |]. split; [reflexivity |].
  pose proof Rpower_2_3_5_bound as Hb.
  assert (H : 3.992 <= m * m) by nra.
  replace (m ^ 4) with ((m * m) * (m * m)) by ring.
  nra.
Qed.

Lemma luminosity_drops_at_two_witness :
  exists l l2,
    mass_luminosity 1.999 = Ok (Re l) /\ mass_luminosity 2 = Ok (Re l2) /\
    l2 < l.
Proof. apply (luminosity_drops_at_two 1.999); lra. Defined.

(** ** Colour and emission *)

Lemma get_color_cases (s : StarPhysics) (t : R) :
  temperature s = Re t ->
  (t < 3500 /\ get_color s = Ok (1.0, 0.0, 0.0)) \/
  (3500 <= t < 5000 /\ get_color s = Ok (1.0, 0.5, 0.0)) \/
  (5000 <= t < 6000 /\ get_color s = Ok (1.0, 1.0, 0.0)) \/
  (6000 <= t < 7500 /\ get_color s = Ok (1.0, 1.0, 1.0)) \/
  (7500 <= t /\ get_color s = Ok (0.8, 0.8, 1.0)).
Proof.
  intros E. unfold get_color, float_lt. rewrite E.
  destruct (Rlt_dec t 3500); [left; split; [lra | reflexivity] |].
  destruct (Rlt_dec t 5000); [right; left; split; [lra | reflexivity] |].
  destruct (Rlt_dec t 6000);
    [right; right; left; split; [lra | reflexivity] |].
  destruct (Rlt_dec t 7500);
    [right; right; right; left; split; [lra | reflexivity] |].
  right; right; right; right. split; [lra | reflexivity].
Qed.

(** X13.  [get_color] returns on every real temperature, each of the three
    channels lies in [0, 1], and of two stars the hotter one is never
    redder and never less blue. *)
Theorem hotter_is_bluer (a b : StarPhysics) (ta tb : R) :
  temperature a = Re ta -> temperature b = Re tb -> ta <= tb ->
  exists ra ga ba rb gb bb,
    get_color a = Ok (ra, ga, ba) /\ get_color b = Ok (rb, gb, bb) /\
    0 <= ra <= 1 /\ 0 <= ga <= 1 /\ 0 <= ba <= 1 /\
    rb <= ra /\ ba <= bb.
Proof.
  intros Ea Eb Hle.
  destruct (get_color_cases a ta Ea)
    as [(Ha & ->) | [(Ha & ->) | [(Ha & ->) | [(Ha & ->) | (Ha & ->)]]]];
  destruct (get_color_cases b tb Eb)
    as [(Hb & ->) | [(Hb & ->) | [(Hb & ->) | [(Hb & ->) | (Hb & ->)]]]];
  do 6 eexists; (split; [reflexivity |]); (split; [reflexivity |]); lra.
Qed.

Lemma hotter_is_bluer_witness :
  exists ra ga ba rb gb bb,
    get_color sun_protostar = Ok (ra, ga, ba) /\
    get_color (set_temperature sun_protostar (Re 8000)) = Ok (rb, gb, bb) /\
    0 <= ra <= 1 /\ 0 <= ga <= 1 /\ 0 <= ba <= 1 /\
    rb <= ra /\ ba <= bb.
Proof.
  apply (hotter_is_bluer sun_protostar
           (set_temperature sun_protostar (Re 8000)) 5778 8000);
    [reflexivity | reflexivity | lra].
Defined.

(** X14.  A reachable star whose mass has become negative has a complex
    luminosity and temperature, and [get_color] raises [TypeError] on it:
    the next frame of the host fails on line 345. *)
Theorem negative_mass_breaks_get_color (s : StarPhysics) :
  reachable s -> current_mass s < 0 ->
  luminosity s = Cx /\ temperature s = Cx /\
  get_color s = Raise TypeError.
Proof.
  intros Hr Hm.
  destruct (reachable_settled _ Hr) as (_ & _ & _ & Hl & (p & Hp & Ht) & _).
  unfold mass_luminosity in Hl.
  rewrite float_lt_true in Hl by lra.
  rewrite float_pow_neg in Hl by exact Hm.
  simpl in Hl. injection Hl as Hl.
  rewrite <- Hl in Hp. simpl in Hp. injection Hp as <-. simpl in Ht.
  split; [symmetry; exact Hl |]. split; [exact Ht |].
  unfold get_color. rewrite Ht. reflexivity.
Qed.

Lemma negative_mass_breaks_get_color_witness :
  luminosity high_mass_collapsed = Cx /\
  temperature high_mass_collapsed = Cx /\
  get_color high_mass_collapsed = Raise TypeError.
Proof.
  apply (negative_mass_breaks_get_color high_mass_collapsed).
  - exact reachable_collapsed.
  - simpl. lra.
Defined.

Lemma log10_increasing (x y : R) : 0 < x -> x <= y -> log10 x <= log10 y.
Proof.
  intros Hx Hxy. unfold log10.
  assert (H10 : 0 < ln 10).
  { rewrite <- ln_1. apply ln_increasing; lra. }
  assert (Hln : ln x <= ln y).
  { destruct Hxy as [Hlt | ->]; [| lra].
    apply Rlt_le, ln_increasing; assumption. }
  apply Rmult_le_compat_r; [| exact Hln].
  apply Rlt_le, Rinv_0_lt_compat. exact H10.
Qed.

Lemma log10_10000 : log10 10000 = 4.
Proof.
  unfold log10.
  assert (H10 : 0 < ln 10).
  { rewrite <- ln_1. apply ln_increasing; lra. }
  replace 10000 with (10 * 10 * (10 * 10)) by lra.
  rewrite !ln_mult by lra. field. lra.
Qed.

(** X15.  On positive luminosities [get_emission] is monotone: the more
    luminous of two stars has the larger emission, no emission exceeds 1,
    and from the luminosity 10000 on the emission is exactly 1. *)
Theorem emission_increases_with_luminosity
    (a b : StarPhysics) (la lb : R) :
  luminosity a = Re la -> luminosity b = Re lb -> 0 < la -> la <= lb ->
  exists ea eb,
    get_emission a = Ok (Finite ea) /\ get_emission b = Ok (Finite eb) /\
    ea <= eb /\ eb <= 1 /\ (10000 <= lb -> eb = 1).
Proof.
  intros Ea Eb H0 Hle.
  rewrite (get_emission_positive a la Ea H0).
  rewrite (get_emission_positive b lb Eb) by lra.
  eexists. eexists. split; [reflexivity |]. split; [reflexivity |].
  pose proof (log10_increasing la lb H0 Hle) as Hlog.
  split; [| split].
  - unfold Rmin. repeat destruct (Rle_dec _ _); lra.
  - unfold Rmin. destruct (Rle_dec _ _); lra.
  - intros Hbig.
    pose proof (log10_increasing 10000 lb ltac:(lra) Hbig) as H4.
    rewrite log10_10000 in H4.
    unfold Rmin. destruct (Rle_dec _ _); lra.
Qed.

Lemma emission_increases_with_luminosity_witness :
  exists ea eb,
    get_emission low_mass_protostar = Ok (Finite ea) /\
    get_emission sun_protostar = Ok (Finite eb) /\
    ea <= eb /\ eb <= 1 /\ (10000 <= 1 -> eb = 1).
Proof.
  assert (H : 0 < Rpower 0.1 2.3 < 0.1).
  { split; [apply Rpower_pos | apply Rpower_tenth_above_one; lra]. }
  apply (emission_increases_with_luminosity
           low_mass_protostar sun_protostar (0.23 * Rpower 0.1 2.3) 1);
    [reflexivity | reflexivity | lra | lra].
Defined.

(** ** The loop of [main] *)

Lemma handle_events_positive (events : list event) (acc acc' : R) :
  0 < acc -> handle_events events acc = Some acc' -> 0 < acc'.
Proof.
  revert acc. induction events as [| e rest IH]; intros acc Hacc H.
  - injection H as <-. exact Hacc.
  - destruct e; simpl in H; try discriminate.
    + apply (IH (acc * 2)); [lra | exact H].
    + apply (IH (acc / 2)); [lra | exact H].
    + apply (IH acc); assumption.
Qed.

Lemma elapsed_times_nonnegative (frames : list (list event * nat))
    (acc : R) :
  0 < acc -> Forall (fun delta_time => 0 <= delta_time)
               (elapsed_times acc frames).
Proof.
  revert acc. induction frames as [| [events ms] rest IH]; intros acc Hacc.
  - constructor.
  - simpl. destruct (handle_events events acc) as [acc' |] eqn:He;
      [| constructor].
    pose proof (handle_events_positive _ _ _ Hacc He) as Hacc'.
    constructor; [| apply IH; exact Hacc'].
    apply Rmult_le_pos; [| lra].
    apply Rmult_le_pos; [apply pos_INR | lra].
Qed.

Lemma main_loop_updates (frames : list (list event * nat))
    (star star' : StarPhysics) (acc : R) :
  main_loop star acc frames = Ok star' ->
  update_all star (elapsed_times acc frames) = Ok star'.
Proof.
  revert star acc. induction frames as [| [events ms] rest IH];
    intros star acc H.
  - exact H.
  - simpl in H. simpl.
    destruct (handle_events events acc) as [acc' |]; [| exact H].
    apply bind_Ok in H as (s1 & H1 & H).
    apply bind_Ok in H as (c & _ & H).
    apply bind_Ok in H as (e & _ & H).
    simpl. rewrite H1. simpl. apply IH. exact H.
Qed.

(** X16.  [main] never hands [update] a negative elapsed time: with fewer
    than a thousand key events, so that [time_acceleration] stays inside
    the range of a double, every elapsed time of the run is non-negative,
    whatever keys are pressed and whatever the clock reports; a run that
    returns ends with the star [update] gives for these elapsed times, which
    for a positive mass is a reachable star. *)
Theorem main_hands_update_nonnegative_times
    (mass h2 : R) (frames : list (list event * nat)) :
  (length (flat_map fst frames) < 1000)%nat ->
  Forall (fun delta_time => 0 <= delta_time) (elapsed_times 1e3 frames) /\
  (forall star,
     main mass h2 frames = Ok star ->
     simulate mass h2 (elapsed_times 1e3 frames) = Ok star /\
     (0 < mass -> reachable star)).
Proof.
  intros _.
  assert (Hd : Forall (fun delta_time => 0 <= delta_time)
                 (elapsed_times 1e3 frames))
    by (apply elapsed_times_nonnegative; lra).
  split; [exact Hd |].
  intros star H. unfold main in H. apply bind_Ok in H as (s0 & H0 & H).
  apply main_loop_updates in H.
  split; [unfold simulate; rewrite H0; exact H |].
  intros Hm.
  assert (Hr0 : reachable s0) by exact (reach_init mass h2 s0 Hm H0).
  clear H0. revert s0 Hr0 H.
  induction Hd as [| dt rest Hdt _ IH]; intros s0 Hr0 H.
  - injection H as <-. exact Hr0.
  - simpl in H. apply bind_Ok in H as (s1 & H1 & H).
    apply (IH s1); [| exact H].
    exact (reach_update s0 s1 dt Hr0 Hdt H1).
Qed.

Lemma main_hands_update_nonnegative_times_witness :
  Forall (fun delta_time => 0 <= delta_time)
    (elapsed_times 1e3 [([KEYDOWN_UP; KEYDOWN_DOWN; KEYDOWN_DOWN], 16%nat);
                        ([other_event], 17%nat)]) /\
  (forall star,
     main 1 71 [([KEYDOWN_UP; KEYDOWN_DOWN; KEYDOWN_DOWN], 16%nat);
                ([other_event], 17%nat)] = Ok star ->
     simulate 1 71
       (elapsed_times 1e3 [([KEYDOWN_UP; KEYDOWN_DOWN; KEYDOWN_DOWN], 16%nat);
                           ([other_event], 17%nat)]) = Ok star /\
     (0 < 1 -> reachable star)).
Proof.
  apply (main_hands_update_nonnegative_times 1 71).
  simpl. lia.
Defined.

(** ** The texture *)

Lemma py_int_byte (v : R) : 0 <= v <= 1 -> (0 <= py_int (v * 255) <= 255)%Z.
Proof.
  intros Hv. unfold py_int.
  destruct (Rle_dec 0 (v * 255)) as [_ | N]; [| lra].
  destruct (base_Int_part (v * 255)) as (Hle & Hgt).
  split.
  - assert (H : (-1 < Int_part (v * 255))%Z) by (apply lt_IZR; lra).
    lia.
  - apply le_IZR. lra.
Qed.

Lemma py_int_of_integer (z : Z) : (0 <= z)%Z -> py_int (IZR z) = z.
Proof.
  intros Hz. unfold py_int.
  destruct (Rle_dec 0 (IZR z)) as [_ | N]; [| exfalso; apply N, IZR_le, Hz].
  destruct (base_Int_part (IZR z)) as (Hle & Hgt).
  assert (H1 : (Int_part (IZR z) <= z)%Z) by (apply le_IZR; exact Hle).
  assert (H2 : (z - 1 < Int_part (IZR z))%Z).
  { apply lt_IZR. rewrite minus_IZR. lra. }
  lia.
Qed.

Lemma texel_intensity_range (x y : Z) : 0 <= texel_intensity x y <= 1.
Proof.
  unfold texel_intensity. cbv zeta.
  set (d := sqrt _).
  assert (Hd : 0 <= d) by apply sqrt_pos.
  change (texture_size / 2)%Z with 128%Z.
  unfold Rmax. destruct (Rle_dec _ _); lra.
Qed.

(** X17.  Each of the four numbers [generate_star_texture] writes for a
    pixel lies between 0 and 255, so it fits the [uint8] array it is
    stored in, whatever the random noise; the three colour channels are
    equal; and the alpha channel is 0 for every pixel at distance 128 or
    more from the centre [(128, 128)], and 255 at the centre. *)
Theorem texel_fits_a_byte (x y : Z) (rand : R) :
  exists brightness alpha,
    texel x y rand = (brightness, brightness, brightness, alpha) /\
    (0 <= brightness <= 255)%Z /\ (0 <= alpha <= 255)%Z /\
    ((128 * 128 <= (x - 128) * (x - 128) + (y - 128) * (y - 128))%Z ->
     alpha = 0%Z) /\
    (x = 128%Z -> y = 128%Z -> alpha = 255%Z).
Proof.
  unfold texel. cbv zeta.
  eexists. eexists. split; [reflexivity |].
  split; [| split; [| split]].
  - apply py_int_byte.
    unfold Rmin, Rmax. repeat destruct (Rle_dec _ _); lra.
  - apply py_int_byte. apply texel_intensity_range.
  - intros Hfar.
    assert (E : texel_intensity x y = 0).
    { unfold texel_intensity. cbv zeta.
      change (texture_size / 2)%Z with 128%Z.
      assert (Hd : 128 <= sqrt (IZR ((x - 128) * (x - 128)
                                      + (y - 128) * (y - 128)))).
      { rewrite <- (sqrt_square 128) by lra.
        apply sqrt_le_1; [lra | apply IZR_le; lia |].
        replace (128 * 128) with (IZR (128 * 128)) by (simpl; lra).
        apply IZR_le. exact Hfar. }
      apply Rmax_left. lra. }
    rewrite E, Rmult_0_l. apply (py_int_of_integer 0). lia.
  - intros -> ->.
    assert (E : texel_intensity 128 128 = 1).
    { unfold texel_intensity. cbv zeta.
      change (texture_size / 2)%Z with 128%Z.
      replace (IZR ((128 - 128) * (128 - 128) + (128 - 128) * (128 - 128)))
        with 0 by (simpl; lra).
      rewrite sqrt_0. unfold Rmax. destruct (Rle_dec _ _); lra. }
    rewrite E, Rmult_1_l. apply (py_int_of_integer 255). lia.
Qed.

Lemma texel_fits_a_byte_witness :
  exists brightness alpha,
    texel 0 0 0.5 = (brightness, brightness, brightness, alpha) /\
    (0 <= brightness <= 255)%Z /\ (0 <= alpha <= 255)%Z /\ alpha = 0%Z.
Proof.
  destruct (texel_fits_a_byte 0 0 0.5) as (b & a & E & Hb & Ha & Hfar & _).
  exists b, a. split; [exact E |]. split; [exact Hb |]. split; [exact Ha |].
  apply Hfar. lia.
Defined.

(** ** Protostars and Red Giants over time *)

(** X18.  A reachable Protostar is younger than its formation time
    [50000 / initial_mass], and its expansion factor is exactly
    [2 - age * initial_mass / 50000]: 2 at construction, falling linearly
    with the age towards 1. *)
Theorem protostar_contracts_linearly (s : StarPhysics) :
  reachable s -> stage s = Protostar ->
  age s < 50000 / initial_mass s /\
  expansion_factor s = 2 - age s * initial_mass s / 50000.
Proof.
  intros Hr Hs.
  pose proof (reachable_stage s Hr) as Hst.
  destruct (reachable_settled _ Hr) as (Hm & _ & _ & _ & _ & Hp & _).
  pose proof (formation_time_of_positive _ Hm) as Hft.
  assert (Eft : formation_time_of (initial_mass s) = 50000 / initial_mass s)
    by (unfold formation_time_of, Rdiv; ring).
  assert (Hage : age s < formation_time_of (initial_mass s)).
  { unfold float_lt in Hst. destruct (Rlt_dec _ _) as [Hlt | _]; [exact Hlt |].
    rewrite Hs in Hst. destruct (float_gt _ _); discriminate. }
  split; [rewrite <- Eft; exact Hage |].
  rewrite (Hp Hs).
  assert (Hq : age s / formation_time_of (initial_mass s)
               = age s * initial_mass s / 50000).
  { unfold formation_time_of. field. lra. }
  assert (Hlt1 : age s / formation_time_of (initial_mass s) < 1).
  { apply (Rmult_lt_reg_r (formation_time_of (initial_mass s)));
      [exact Hft |].
    unfold Rdiv. rewrite Rmult_assoc, Rinv_l by lra. lra. }
  rewrite Rmin_right by lra. lra.
Qed.

Lemma protostar_contracts_linearly_witness :
  age sun_protostar_10000 < 50000 / initial_mass sun_protostar_10000 /\
  expansion_factor sun_protostar_10000
  = 2 - age sun_protostar_10000 * initial_mass sun_protostar_10000 / 50000.
Proof.
  apply (protostar_contracts_linearly sun_protostar_10000).
  - apply (reach_update sun_protostar _ 10000);
      [exact reachable_sun | lra | exact update_sun].
  - reflexivity.
Defined.

(** X19.  Mass loss compounds: after any calls of [update] with
    non-negative elapsed times [d1 .. dn] on a reachable Red Giant of mass
    [m], the mass is [m * (1 - 1e-11 * d1) * ... * (1 - 1e-11 * dn)]. *)
Theorem red_giant_mass_compounds
    (s : StarPhysics) (delta_times : list R) :
  reachable s -> stage s = RedGiant ->
  Forall (fun delta_time => 0 <= delta_time) delta_times ->
  exists s',
    update_all s delta_times = Ok s' /\
    current_mass s'
    = current_mass s
      * fold_right (fun delta_time rest => (1 - 1e-11 * delta_time) * rest)
          1 delta_times.
Proof.
  intros Hr Hs Hd. revert s Hr Hs.
  induction Hd as [| dt rest Hdt _ IH]; intros s Hr Hs.
  - exists s. split; [reflexivity |]. simpl. lra.
  - destruct (update_reachable s dt Hr Hdt)
      as (s1 & H & _ & Hr1 & _ & _ & _ & Fm & _).
    pose proof (red_giant_stays s s1 dt Hr Hs Hdt H) as Hs1.
    rewrite aged_current_mass, Hs in Fm. simpl in Fm.
    destruct (IH s1 Hr1 Hs1) as (s' & H' & Hm').
    exists s'. simpl update_all. rewrite H. simpl bind.
    split; [exact H' |].
    rewrite Hm', Fm. simpl fold_right. ring.
Qed.

Lemma red_giant_mass_compounds_witness :
  exists s',
    update_all high_mass_red_giant [1e10; 1e10] = Ok s' /\
    current_mass s'
    = 2 * ((1 - 1e-11 * 1e10) * ((1 - 1e-11 * 1e10) * 1)).
Proof.
  apply (red_giant_mass_compounds high_mass_red_giant [1e10; 1e10]).
  - exact reachable_red_giant.
  - reflexivity.
  - repeat constructor; lra.
Defined.

(** ** The mass before the Red Giant stage (C5) *)




